(** * slider.model.features: feature extraction for accuracy prediction

    A shallow embedding of [slider/model/features.py] and the properties
    of its feature vectors and of the data set built from a directory of
    replays.

    Numbers.  The program computes on Python floats and numpy [float64]
    arrays.  The embedding takes them as exact rationals ([Q]): [+], [-],
    [*] and [/] do not round, and there is no NaN and no infinity.  Python
    integers that end up in a [float64] array are injected into [Q].
    Durations ([datetime.timedelta]) and instants ([datetime.datetime]) are
    whole numbers of microseconds ([Z]).

    What the module imports.  [numpy.arctan2] and the two conversions
    [ar_to_ms] and [ms_to_ar] of [slider.mod] are taken as parameters of
    the development: every theorem holds for whatever functions stand
    there.  The reductions of numpy ([mean], [median], [max], [diff], [abs])
    are written out from their documentation. *)

From Stdlib Require Import QArith Qabs Qminmax Lqa.
From stdpp Require Import gmap strings list fin_maps sorting.

Local Open Scope string_scope.
Local Open Scope list_scope.

(** ** Python: exceptions, builtins *)

(** The exceptions the module can raise. *)
Inductive exn : Type :=
| ValueError   (* numpy: a negative dimension, a reduction of an empty axis *)
| TypeError.   (* a call with a keyword the function does not have *)

(** A computation either returns a value or raises. *)
Inductive result (A : Type) : Type :=
| Ok (a : A)
| Raise (e : exn).
Arguments Ok {A} a.
Arguments Raise {A} e.

#[export] Instance result_ret : MRet result := λ A a, Ok a.
#[export] Instance result_bind : MBind result :=
  λ A B f m, match m with Ok a => f a | Raise e => Raise e end.

#[export] Instance Q_inhabited : Inhabited Q := populate 0%Q.
#[export] Instance Qle_dec (a b : Q) : Decision (a <= b)%Q :=
  match Qlt_le_dec b a with
  | left H => right (Qlt_not_le _ _ H)
  | right H => left H
  end.

(** [min(a, b)] on two numbers: the first one unless the second is
    strictly smaller. *)
Definition py_min (a b : Q) : Q := if Qlt_le_dec b a then b else a.

(** [float(flag)] for a [bool]. *)
Definition py_float (flag : bool) : Q := if flag then 1%Q else 0%Q.

(** [s.endswith(suffix)]. *)
Definition endswith (s suffix : string) : bool :=
  let n := String.length s in
  let m := String.length suffix in
  bool_decide (m ≤ n)%nat && bool_decide (String.substring (n - m)%nat m s = suffix).

(** The order of [str]: by code point, the first difference decides. *)
Definition key_le {A : Type} (key : A → string) (a b : A) : Prop :=
  String.leb (key a) (key b) = true.

#[export] Instance key_le_dec {A} (key : A → string) (a b : A) :
  Decision (key_le key a b).
Proof. unfold key_le. apply _. Defined.

(** [sorted(items, key=key)] for string keys. *)
Definition sorted {A : Type} (items : list A) (key : A → string) : list A :=
  merge_sort (key_le key) items.

(** ** numpy, on rows ([list Q]) and on 2-d arrays as lists of rows *)

(** [np.diff] of one row: [a[1:] - a[:-1]]. *)
Fixpoint np_diff (a : list Q) : list Q :=
  match a with
  | [] => []
  | a0 :: rest =>
      match rest with
      | [] => []
      | a1 :: _ => (a1 - a0)%Q :: np_diff rest
      end
  end.

(** [np.diff(a, axis=1)]. *)
Definition np_diff_axis1 (a : list (list Q)) : list (list Q) := np_diff <$> a.

(** [np.empty((rows, columns))] raises [ValueError] on a negative
    dimension; the cells of the new array hold nothing one may rely on. *)
Definition np_empty (rows : nat) (columns : Z) : result (list (list Q)) :=
  if bool_decide (columns < 0)%Z then Raise ValueError
  else Ok (replicate rows (replicate (Z.to_nat columns) 0%Q)).

(** [np.abs]. *)
Definition np_abs (a : list (list Q)) : list (list Q) :=
  (λ row : list Q, Qabs <$> row) <$> a.

(** The sum of a row. *)
Definition np_sum (a : list Q) : Q := foldr Qplus 0%Q a.

(** [np.mean] of one row: the sum over the number of elements.  On an
    empty row numpy warns and gives NaN; here the quotient by zero is [0].
    numpy rounds the sum and the quotient to [float64], so that its mean
    of several values can leave their range by a unit in the last place;
    the exact mean here cannot. *)
Definition np_mean (a : list Q) : Q :=
  (np_sum a / inject_Z (Z.of_nat (length a)))%Q.

(** [np.median] of one row, as numpy computes it: the mean of the middle
    element, or of the two middle elements, of the row in ascending
    order. *)
Definition np_median (a : list Q) : Q :=
  let part := merge_sort Qle a in
  let sz := length a in
  let index := (sz / 2)%nat in
  if bool_decide (sz mod 2 = 1)%nat
  then np_mean (take 1 (drop index part))
  else np_mean (take 2 (drop (index - 1) part)).

(** [np.max] of one row; numpy raises [ValueError] on an empty row
    ("zero-size array to reduction operation maximum which has no
    identity"). *)
Definition np_max (a : list Q) : result Q :=
  match a with
  | [] => Raise ValueError
  | a0 :: rest => Ok (foldl Qmax a0 rest)
  end.

Definition np_mean_axis1 (a : list (list Q)) : list Q := np_mean <$> a.
Definition np_median_axis1 (a : list (list Q)) : list Q := np_median <$> a.
Definition np_max_axis1 (a : list (list Q)) : result (list Q) := mapM np_max a.

(** ** The beatmap and replay interfaces the module reads *)

Record Position : Type := { x : Q; y : Q }.

(** The classes of hit object: [isinstance(hit_object, Circle)] is
    [class hit_object = Circle]. *)
Inductive HitObjectClass : Type := Circle | Slider | Spinner.

#[export] Instance HitObjectClass_eq_dec : EqDecision HitObjectClass.
Proof. solve_decision. Defined.

Record HitObject : Type := {
  class : HitObjectClass;
  position : Position;
  time : Z                      (* a timedelta, in microseconds *)
}.

(** [timedelta.total_seconds()]. *)
Definition total_seconds (delta : Z) : Q := (inject_Z delta / 1000000)%Q.

Record Beatmap : Type := {
  hit_objects : list HitObject;
  hp : Q;
  cs : Q;
  od : Q;
  ar : Q;
  bpm_min : Q;
  bpm_max : Q;
  slider_multiplier : Q;
  slider_tick_rate : Q
}.

(** Modelled from the spec: the property [Beatmap.hit_objects_no_spinners]
    is declared in [slider/beatmap.py]; by the specification the angle
    statistics are "computed over hit objects with spinners excluded". *)
Definition hit_objects_no_spinners (beatmap : Beatmap) : list HitObject :=
  filter (λ hit_object, class hit_object ≠ Spinner) (hit_objects beatmap).

Record Replay : Type := {
  beatmap : Beatmap;
  timestamp : Z;                (* a datetime, in microseconds *)
  accuracy : Q;
  autoplay : bool;
  spun_out : bool;
  auto_pilot : bool;
  cinema : bool;
  relax : bool;
  easy : bool;
  hidden : bool;
  hard_rock : bool;
  double_time : bool;
  half_time : bool;
  flashlight : bool
}.

(** One entry of [os.scandir(path)]: its name, the replay that
    [Replay.from_path(entry, library=library)] reads from it, and what
    [datetime.utcnow()] answers while the loop is at this entry. *)
Record DirEntry : Type := {
  name : string;
  from_path : Replay;
  utcnow : Z
}.

(** ** features.py *)

Section features.

(** [np.arctan2], and [ar_to_ms] and [ms_to_ar] of [slider.mod]. *)
Variable arctan2 : Q → Q → Q.
Variables ar_to_ms ms_to_ar : Q → Q.

(** Axis indices. *)
Definition _x : nat := 0.
Definition _y : nat := 1.
Definition _z : nat := 2.

(** The coordinates of the hit objects as a (3, len(hit_objects)) array:
    the rows are the x, y and z coordinates, z being the time in
    hundredths of a second. *)
Definition hit_object_coordinates (hit_objects : list HitObject)
  : list (list Q) :=
  let '(xs, ys, zs) :=
    foldl (λ '(xs, ys, zs) hit_object,
             let position := position hit_object in
             (xs ++ [x position],
              ys ++ [y position],
              zs ++ [(total_seconds (time hit_object) * 100)%Q]))
          ([], [], []) hit_objects in
  [xs; ys; zs].

(** Angle indices. *)
Definition pitch : nat := 0.
Definition roll : nat := 1.
Definition yaw : nat := 2.

(** The angles from one hit object to the next, time along the z axis:
    a (3, len(hit_objects) - 1) array of pitch, roll and yaw. *)
Definition hit_object_angles (hit_objects : list HitObject)
  : result (list (list Q)) :=
  let coords := hit_object_coordinates hit_objects in
  let diff := np_diff_axis1 coords in
  out ← np_empty 3 (Z.of_nat (length hit_objects) - 1);
  let out := <[pitch := zip_with arctan2 (diff !!! _y) (diff !!! _z)]> out in
  let out := <[roll := zip_with arctan2 (diff !!! _y) (diff !!! _x)]> out in
  let out := <[yaw := zip_with arctan2 (diff !!! _z) (diff !!! _x)]> out in
  mret out.

(** The counts of circles, sliders and spinners; what is neither a circle
    nor a slider counts as a spinner. *)
Definition count_hit_objects (hit_objects : list HitObject)
  : nat * nat * nat :=
  foldl (λ '(circles, sliders, spinners) hit_object,
           if decide (class hit_object = Circle)
           then (circles + 1, sliders, spinners)%nat
           else if decide (class hit_object = Slider)
           then (circles, sliders + 1, spinners)%nat
           else (circles, sliders, spinners + 1)%nat)
        (0, 0, 0)%nat hit_objects.

(** [extract_features], lines 166 to 174: [od] and [ar] under the easy
    and hard rock mods. *)
Definition easy_hard_rock (easy hard_rock : bool) (od ar : Q) : Q * Q :=
  if easy then ((od / 2)%Q, (ar / 2)%Q)
  else if hard_rock then (py_min (1.4 * od)%Q 10%Q, py_min (1.4 * ar)%Q 10%Q)
  else (od, ar).

(** [extract_features], lines 176 to 186: [ar], [bpm_min] and [bpm_max]
    under the half time and double time mods. *)
Definition half_double_time (half_time double_time : bool)
    (ar bpm_min bpm_max : Q) : Q * Q * Q :=
  if half_time
  then (ms_to_ar (4 * ar_to_ms ar / 3)%Q, (bpm_min * 0.75)%Q, (bpm_max * 0.75)%Q)
  else if double_time
  then (ms_to_ar (2 * ar_to_ms ar / 3)%Q, (bpm_min * 1.5)%Q, (bpm_max * 1.5)%Q)
  else (ar, bpm_min, bpm_max).

(** [extract_features], lines 188 to 226: the dictionary it returns. *)
Definition features_by_name (beatmap : Beatmap)
    (easy hidden hard_rock double_time half_time flashlight : bool)
    (od ar bpm_min bpm_max : Q) (circles sliders spinners : nat)
    (mean_angles median_angles max_angles : list Q) : gmap string Q :=
  list_to_map [
    (* basic stats *)
    ("HP", hp beatmap);
    ("CS", cs beatmap);
    ("OD", od);
    ("AR", ar);
    (* mods *)
    ("easy", py_float easy);
    ("hidden", py_float hidden);
    ("hard_rock", py_float hard_rock);
    ("double_time", py_float double_time);
    ("half_time", py_float half_time);
    ("flashlight", py_float flashlight);
    (* bpm *)
    ("bpm-min", bpm_min);
    ("bpm-max", bpm_max);
    (* hit objects *)
    ("circle-count", inject_Z (Z.of_nat circles));
    ("slider-count", inject_Z (Z.of_nat sliders));
    ("spinner-count", inject_Z (Z.of_nat spinners));
    (* slider info *)
    ("slider-multiplier", slider_multiplier beatmap);
    ("slider-tick-rate", slider_tick_rate beatmap);
    (* hit object angles *)
    ("mean-pitch", mean_angles !!! pitch);
    ("mean-roll", mean_angles !!! roll);
    ("mean-yaw", mean_angles !!! yaw);
    ("median-pitch", median_angles !!! pitch);
    ("median-roll", median_angles !!! roll);
    ("median-yaw", median_angles !!! yaw);
    ("max-pitch", max_angles !!! pitch);
    ("max-roll", max_angles !!! roll);
    ("max-yaw", max_angles !!! yaw)
  ].

(** All the features of a beatmap, by name. *)
Definition extract_features (beatmap : Beatmap)
    (easy hidden hard_rock double_time relax half_time flashlight : bool)
  : result (gmap string Q) :=
  (* ignore the direction of the angle, just take the magnitude *)
  angles ← hit_object_angles (hit_objects_no_spinners beatmap);
  let angles := np_abs angles in
  let mean_angles := np_mean_axis1 angles in
  let median_angles := np_median_axis1 angles in
  max_angles ← np_max_axis1 angles;
  let '(circles, sliders, spinners) :=
    count_hit_objects (hit_objects beatmap) in
  let '(od, ar) := easy_hard_rock easy hard_rock (od beatmap) (ar beatmap) in
  let '(ar, bpm_min, bpm_max) :=
    half_double_time half_time double_time ar
                     (bpm_min beatmap) (bpm_max beatmap) in
  mret (features_by_name beatmap
          easy hidden hard_rock double_time half_time flashlight
          od ar bpm_min bpm_max circles sliders spinners
          mean_angles median_angles max_angles).

Definition _fst {A B : Type} (tup : A * B) : A := tup.1.

(** The keyword parameters of [extract_features]. *)
Definition extract_features_keywords : gset string :=
  {[ "easy"; "hidden"; "hard_rock"; "double_time"; "relax"; "half_time";
     "flashlight" ]}.

(** [extract_features(beatmap, **mods)]: a key of [mods] that is no
    parameter is a [TypeError], a parameter [mods] does not give is
    [False]. *)
Definition extract_features_kw (beatmap : Beatmap) (mods : gmap string bool)
  : result (gmap string Q) :=
  if decide (dom mods ⊆ extract_features_keywords) then
    let arg keyword := default false (mods !! keyword) in
    extract_features beatmap (arg "easy") (arg "hidden") (arg "hard_rock")
      (arg "double_time") (arg "relax") (arg "half_time") (arg "flashlight")
  else Raise TypeError.

(** [extract_feature_array], lines 248 to 254: one row, the features of
    one beatmap in the order of their names. *)
Definition feature_row (beatmap_and_mods : Beatmap * gmap string bool)
  : result (list Q) :=
  let '(beatmap, mods) := beatmap_and_mods in
  features ← extract_features_kw beatmap mods;
  mret ((sorted (map_to_list features) _fst).*2).

(** The features of each beatmap, one row each; beatmaps of fewer than 2
    hit objects are left out. *)
Definition extract_feature_array
    (beatmaps_and_mods : list (Beatmap * gmap string bool))
  : result (list (list Q)) :=
  mapM feature_row
       (filter (λ beatmap_and_mods,
                  (2 ≤ length (hit_objects beatmap_and_mods.1))%nat)
               beatmaps_and_mods).

(** The mods that are not representative of user skill (lines 300 to
    304). *)
Definition unrepresentative (replay : Replay) : bool :=
  autoplay replay || spun_out replay || auto_pilot replay ||
  cinema replay || relax replay.

(** A labeled feature set from a directory of replays: [entries] is what
    [os.scandir(path)] yields, each with the replay read from it through
    the library; [age], when given, is the greatest age of a replay that
    counts. *)
Definition extract_from_replay_directory
    (entries : list DirEntry) (age : option Z)
  : result (list (list Q) * list Q) :=
  let '(beatmaps_and_mods, accuracies) :=
    foldl (λ '(beatmaps_and_mods, accuracies) entry,
             if negb (endswith (name entry) ".osr")
             then (beatmaps_and_mods, accuracies)
             else
               let replay := from_path entry in
               if match age with
                  | Some age =>
                      bool_decide (age < utcnow entry - timestamp replay)%Z
                  | None => false
                  end
               then (beatmaps_and_mods, accuracies)
               else if unrepresentative replay
               then (beatmaps_and_mods, accuracies)
               else
                 (beatmaps_and_mods ++
                    [(beatmap replay,
                      ({[ "easy" := easy replay;
                          "hidden" := hidden replay;
                          "hard_rock" := hard_rock replay;
                          "double_time" := double_time replay;
                          "half_time" := half_time replay;
                          "flashlight" := flashlight replay ]}
                       : gmap string bool))],
                  accuracies ++ [accuracy replay]))
          ([], []) entries in
  features ← extract_feature_array beatmaps_and_mods;
  mret (features, accuracies).

End features.

(** ** What the statements below name *)

(** The mods dictionary that [extract_from_replay_directory] builds for
    a replay. *)
Definition mods_of (replay : Replay) : gmap string bool :=
  {[ "easy" := easy replay;
     "hidden" := hidden replay;
     "hard_rock" := hard_rock replay;
     "double_time" := double_time replay;
     "half_time" := half_time replay;
     "flashlight" := flashlight replay ]}.

(** The age test of line 297. *)
Definition too_old (age : option Z) (entry : DirEntry) : bool :=
  match age with
  | Some age => bool_decide (age < utcnow entry - timestamp (from_path entry))%Z
  | None => false
  end.

(** The entries that reach the two [append] calls of the loop. *)
Definition counted (age : option Z) (entry : DirEntry) : bool :=
  endswith (name entry) ".osr" && negb (too_old age entry) &&
  negb (unrepresentative (from_path entry)).

(** The guard of [extract_feature_array], line 256. *)
Definition has_two_hit_objects (beatmap : Beatmap) : Prop :=
  (2 ≤ length (hit_objects beatmap))%nat.

(** The feature names of the specification (section 4.5). *)
Definition feature_names : gset string :=
  {[ "HP"; "CS"; "OD"; "AR";
     "easy"; "hidden"; "hard_rock"; "double_time"; "half_time"; "flashlight";
     "bpm-min"; "bpm-max";
     "circle-count"; "slider-count"; "spinner-count";
     "slider-multiplier"; "slider-tick-rate";
     "mean-pitch"; "mean-roll"; "mean-yaw";
     "median-pitch"; "median-roll"; "median-yaw";
     "max-pitch"; "max-roll"; "max-yaw" ]}.

(** The same names in the order of [str]: the columns of a row. *)
Definition feature_columns : list string :=
  [ "AR"; "CS"; "HP"; "OD"; "bpm-max"; "bpm-min"; "circle-count";
    "double_time"; "easy"; "flashlight"; "half_time"; "hard_rock"; "hidden";
    "max-pitch"; "max-roll"; "max-yaw"; "mean-pitch"; "mean-roll"; "mean-yaw";
    "median-pitch"; "median-roll"; "median-yaw"; "slider-count";
    "slider-multiplier"; "slider-tick-rate"; "spinner-count" ].

(** The mean, the median and the maximum of one kind of angle agree in a
    feature vector. *)
Definition statistics_agree (features : gmap string Q) (kind : string) : Prop :=
  ∃ mean median max : Q,
    features !! ("mean-" +:+ kind) = Some mean ∧
    features !! ("median-" +:+ kind) = Some median ∧
    features !! ("max-" +:+ kind) = Some max ∧
    (mean == median)%Q ∧ (median == max)%Q.

(** In a feature vector the mean of one kind of angle is not negative,
    and its median lies between 0 and the maximum of this kind. *)
Definition statistics_bounded (features : gmap string Q) (kind : string)
  : Prop :=
  ∃ mean median max : Q,
    features !! ("mean-" +:+ kind) = Some mean ∧
    features !! ("median-" +:+ kind) = Some median ∧
    features !! ("max-" +:+ kind) = Some max ∧
    (0 <= mean)%Q ∧ (0 <= median)%Q ∧ (median <= max)%Q.

(** ** Sample data for the examples *)

(** A rational stand-in for [np.arctan2(y, x)]: within a quadrant it is
    linear in [|y| / (|x| + |y|)], with 22/7 for pi. *)
Definition sample_arctan2 (y x : Q) : Q :=
  let s := (Qabs x + Qabs y)%Q in
  if Qeq_bool s 0 then 0%Q
  else
    let a := (11 / 7 * (Qabs y / s))%Q in
    let b := if Qlt_le_dec x 0 then (22 / 7 - a)%Q else a in
    if Qlt_le_dec y 0 then (- b)%Q else b.

(** A conversion between approach rate and milliseconds that is linear
    from 1800 ms at 0 to 1200 ms at 5 and from there to 450 ms at 10, and
    its inverse. *)
Definition sample_ar_to_ms (ar : Q) : Q :=
  if Qlt_le_dec ar 5 then (1800 - 120 * ar)%Q else (1950 - 150 * ar)%Q.
Definition sample_ms_to_ar (ms : Q) : Q :=
  if Qlt_le_dec 1200 ms then ((1800 - ms) / 120)%Q else ((1950 - ms) / 150)%Q.

Definition hit_object_at (class : HitObjectClass) (x y : Q) (time : Z)
  : HitObject :=
  {| class := class; position := {| x := x; y := y |}; time := time |}.

Definition beatmap_of (hit_objects : list HitObject) : Beatmap :=
  {| hit_objects := hit_objects;
     hp := 6; cs := 4; od := 5; ar := 9;
     bpm_min := 120; bpm_max := 180;
     slider_multiplier := 1.4; slider_tick_rate := 1 |}.

(** No hit object at all. *)
Definition empty_beatmap : Beatmap := beatmap_of [].

(** One circle. *)
Definition one_circle : Beatmap := beatmap_of [hit_object_at Circle 64 64 0].

(** A circle and a spinner: two hit objects, one of them not a spinner. *)
Definition circle_and_spinner : Beatmap :=
  beatmap_of [hit_object_at Circle 64 64 0;
              hit_object_at Spinner 256 192 1500000].

(** Two circles. *)
Definition two_circles : Beatmap :=
  beatmap_of [hit_object_at Circle 64 64 0;
              hit_object_at Circle 128 256 500000].

(** Circles, a slider and a spinner. *)
Definition four_objects : Beatmap :=
  beatmap_of [hit_object_at Circle 0 0 0;
              hit_object_at Slider 100 50 500000;
              hit_object_at Spinner 256 192 1000000;
              hit_object_at Circle 30 40 2000000].

(** A replay of [beatmap] with the given accuracy and no mod. *)
Definition replay_of (beatmap : Beatmap) (accuracy : Q) : Replay :=
  {| beatmap := beatmap; timestamp := 0; accuracy := accuracy;
     autoplay := false; spun_out := false; auto_pilot := false;
     cinema := false; relax := false;
     easy := false; hidden := false; hard_rock := false;
     double_time := false; half_time := false; flashlight := false |}.

(** The same replay played with the relax mod. *)
Definition with_relax (replay : Replay) : Replay :=
  {| beatmap := beatmap replay; timestamp := timestamp replay;
     accuracy := accuracy replay;
     autoplay := autoplay replay; spun_out := spun_out replay;
     auto_pilot := auto_pilot replay; cinema := cinema replay;
     relax := true;
     easy := easy replay; hidden := hidden replay;
     hard_rock := hard_rock replay; double_time := double_time replay;
     half_time := half_time replay; flashlight := flashlight replay |}.

Definition entry_of (name : string) (replay : Replay) : DirEntry :=
  {| name := name; from_path := replay; utcnow := 86400000000 |}.

(** Five replays, the third one played with relax. *)
Definition five_replays : list DirEntry :=
  [ entry_of "1.osr" (replay_of two_circles 0.91);
    entry_of "2.osr" (replay_of four_objects 0.92);
    entry_of "3.osr" (with_relax (replay_of two_circles 0.93));
    entry_of "4.osr" (replay_of four_objects 0.94);
    entry_of "5.osr" (replay_of two_circles 0.95) ].

(** Two replays, the first one of a beatmap with a single hit object. *)
Definition short_then_long : list DirEntry :=
  [ entry_of "1.osr" (replay_of one_circle 0.5);
    entry_of "2.osr" (replay_of two_circles 0.9) ].

(** A replay of [two_circles] set [age] microseconds before the clock
    reading of its entry. *)
Definition entry_aged (name : string) (age : Z) (accuracy : Q) : DirEntry :=
  {| name := name;
     from_path :=
       {| beatmap := two_circles; timestamp := 500000000000 - age;
          accuracy := accuracy;
          autoplay := false; spun_out := false; auto_pilot := false;
          cinema := false; relax := false;
          easy := false; hidden := false; hard_rock := false;
          double_time := false; half_time := false; flashlight := false |};
     utcnow := 500000000000 |}.

Definition one_hour : Z := 3600000000.

(** Three replays: of now, of one hour ago and of 48 hours ago. *)
Definition three_ages : list DirEntry :=
  [ entry_aged "new.osr" 0 0.8;
    entry_aged "hour.osr" one_hour 0.7;
    entry_aged "old.osr" (48 * one_hour) 0.6 ].

(** Three replays: of now, of exactly 24 hours ago, and one microsecond
    older. *)
Definition boundary_ages : list DirEntry :=
  [ entry_aged "new.osr" 0 0.8;
    entry_aged "day.osr" (24 * one_hour) 0.5;
    entry_aged "older.osr" (24 * one_hour + 1) 0.6 ].

(** ** Lemmas on the numpy functions and on the loops *)

Section properties.

Variable arctan2 : Q → Q → Q.
Variables ar_to_ms ms_to_ar : Q → Q.

Local Abbreviation hit_object_angles := (hit_object_angles arctan2).
Local Abbreviation extract_features :=
  (extract_features arctan2 ar_to_ms ms_to_ar).
Local Abbreviation extract_features_kw :=
  (extract_features_kw arctan2 ar_to_ms ms_to_ar).
Local Abbreviation feature_row := (feature_row arctan2 ar_to_ms ms_to_ar).
Local Abbreviation extract_feature_array :=
  (extract_feature_array arctan2 ar_to_ms ms_to_ar).
Local Abbreviation extract_from_replay_directory :=
  (extract_from_replay_directory arctan2 ar_to_ms ms_to_ar).


Lemma result_bind_Ok {A B} (m : result A) (k : A → result B) (b : B) :
  m ≫= k = Ok b → ∃ a, m = Ok a ∧ k a = Ok b.
Proof. destruct m as [a|e]; [eauto | discriminate]. Qed.

Lemma mapM_result_Ok {A B} (f : A → result B) (l : list A) (k : list B) :
  mapM f l = Ok k → Forall2 (λ a b, f a = Ok b) l k.
Proof.
  revert k. induction l as [|a l IH]; intros k Hk; simpl in Hk.
  - injection Hk as <-. constructor.
  - apply result_bind_Ok in Hk as (b & Hb & Hk).
    apply result_bind_Ok in Hk as (k' & Hk' & Hk).
    injection Hk as <-. constructor; auto.
Qed.

Lemma mapM_result_Forall2 {A B} (f : A → result B) (l : list A) (k : list B) :
  Forall2 (λ a b, f a = Ok b) l k → mapM f l = Ok k.
Proof.
  induction 1 as [|a b l k Hab _ IH]; simpl; [done|].
  by rewrite Hab; simpl; rewrite IH.
Qed.

Lemma length_np_diff (a : list Q) : length (np_diff a) = (length a - 1)%nat.
Proof.
  induction a as [|a0 [|a1 rest] IH]; simpl in *; try done.
  rewrite IH. lia.
Qed.

Lemma coordinates_loop (hit_objects : list HitObject) (xs ys zs : list Q) :
  foldl (λ '(xs, ys, zs) hit_object,
           let position := position hit_object in
           (xs ++ [x position],
            ys ++ [y position],
            zs ++ [(total_seconds (time hit_object) * 100)%Q]))
        (xs, ys, zs) hit_objects
  = (xs ++ ((λ h, x (position h)) <$> hit_objects),
     ys ++ ((λ h, y (position h)) <$> hit_objects),
     zs ++ ((λ h, (total_seconds (time h) * 100)%Q) <$> hit_objects)).
Proof.
  revert xs ys zs.
  induction hit_objects as [|h hs IH]; intros xs ys zs; simpl.
  - by rewrite !app_nil_r.
  - rewrite IH. by rewrite <- !app_assoc.
Qed.

Lemma hit_object_coordinates_rows (hit_objects : list HitObject) :
  hit_object_coordinates hit_objects
  = [ (λ h, x (position h)) <$> hit_objects;
      (λ h, y (position h)) <$> hit_objects;
      (λ h, (total_seconds (time h) * 100)%Q) <$> hit_objects ].
Proof. unfold hit_object_coordinates. by rewrite coordinates_loop. Qed.

Local Abbreviation half_double_time := (half_double_time ar_to_ms ms_to_ar).

(** The three rows of angles of a non-empty sequence of hit objects. *)
Lemma hit_object_angles_rows (hit_objects : list HitObject) :
  hit_objects ≠ [] →
  let dx := np_diff ((λ h, x (position h)) <$> hit_objects) in
  let dy := np_diff ((λ h, y (position h)) <$> hit_objects) in
  let dz := np_diff ((λ h, (total_seconds (time h) * 100)%Q) <$> hit_objects) in
  hit_object_angles hit_objects
  = Ok [ zip_with arctan2 dy dz; zip_with arctan2 dy dx; zip_with arctan2 dz dx ].
Proof.
  intros Hne. unfold hit_object_angles.
  rewrite hit_object_coordinates_rows.
  unfold np_empty. rewrite bool_decide_eq_false_2.
  - reflexivity.
  - destruct hit_objects; [done|]. simpl length. lia.
Qed.

Lemma hit_object_angles_empty : hit_object_angles [] = Raise ValueError.
Proof. reflexivity. Qed.

Lemma np_max_nonempty (a : list Q) :
  a ≠ [] → ∃ v, np_max a = Ok v.
Proof. destruct a; [done | simpl; eauto]. Qed.

Lemma np_max_empty (a : list Q) : (length a = 0)%nat → np_max a = Raise ValueError.
Proof. by destruct a. Qed.

(** The rows of angles of [n] hit objects have [n - 1] columns. *)
Lemma length_angle_row (f : HitObject → Q) (g : HitObject → Q)
    (hit_objects : list HitObject) :
  length (Qabs <$> zip_with arctan2 (np_diff (f <$> hit_objects))
                                    (np_diff (g <$> hit_objects)))
  = (length hit_objects - 1)%nat.
Proof.
  rewrite length_fmap, length_zip_with, !length_np_diff, !length_fmap. lia.
Qed.

(** What [extract_features] returns, when it returns. *)
Lemma extract_features_Ok (b : Beatmap) (e h hr dt r ht f : bool)
    (fv : gmap string Q) :
  extract_features b e h hr dt r ht f = Ok fv →
  ∃ angles max_angles,
    hit_object_angles (hit_objects_no_spinners b) = Ok angles ∧
    np_max_axis1 (np_abs angles) = Ok max_angles ∧
    fv = features_by_name b e h hr dt ht f
           (easy_hard_rock e hr (od b) (ar b)).1
           (half_double_time ht dt (easy_hard_rock e hr (od b) (ar b)).2
              (bpm_min b) (bpm_max b)).1.1
           (half_double_time ht dt (easy_hard_rock e hr (od b) (ar b)).2
              (bpm_min b) (bpm_max b)).1.2
           (half_double_time ht dt (easy_hard_rock e hr (od b) (ar b)).2
              (bpm_min b) (bpm_max b)).2
           (count_hit_objects (hit_objects b)).1.1
           (count_hit_objects (hit_objects b)).1.2
           (count_hit_objects (hit_objects b)).2
           (np_mean_axis1 (np_abs angles))
           (np_median_axis1 (np_abs angles))
           max_angles.
Proof.
  unfold extract_features. intros H.
  apply result_bind_Ok in H as (angles & Hangles & H).
  apply result_bind_Ok in H as (max_angles & Hmax & H).
  exists angles, max_angles. split; [done|]. split; [done|].
  destruct (count_hit_objects (hit_objects b)) as [[circles sliders] spinners].
  destruct (easy_hard_rock e hr (od b) (ar b)) as [od' ar'].
  simpl in *.
  destruct (half_double_time ht dt ar' (bpm_min b) (bpm_max b))
    as [[ar'' bpm_min'] bpm_max'].
  by injection H as <-.
Qed.

(** [extract_features] returns on a beatmap with at least two hit objects
    that are not spinners. *)
Lemma extract_features_returns (b : Beatmap) (e h hr dt r ht f : bool) :
  (2 ≤ length (hit_objects_no_spinners b))%nat →
  ∃ fv, extract_features b e h hr dt r ht f = Ok fv.
Proof.
  intros Hlen. unfold extract_features.
  rewrite hit_object_angles_rows
    by (intros Heq; rewrite Heq in Hlen; simpl in Hlen; lia).
  set (hs := hit_objects_no_spinners b) in *.
  change (Ok ?a ≫= ?k) with (k a); cbv beta.
  unfold np_abs; rewrite !fmap_cons, fmap_nil.
  destruct (np_max_nonempty
              (Qabs <$> zip_with arctan2
                 (np_diff ((λ h, y (position h)) <$> hs))
                 (np_diff ((λ h, (total_seconds (time h) * 100)%Q) <$> hs))))
    as [mp Hp].
  { intros Heq. apply (f_equal length) in Heq.
    rewrite length_angle_row in Heq. simpl in Heq. lia. }
  destruct (np_max_nonempty
              (Qabs <$> zip_with arctan2
                 (np_diff ((λ h, y (position h)) <$> hs))
                 (np_diff ((λ h, x (position h)) <$> hs))))
    as [mr Hr].
  { intros Heq. apply (f_equal length) in Heq.
    rewrite length_angle_row in Heq. simpl in Heq. lia. }
  destruct (np_max_nonempty
              (Qabs <$> zip_with arctan2
                 (np_diff ((λ h, (total_seconds (time h) * 100)%Q) <$> hs))
                 (np_diff ((λ h, x (position h)) <$> hs))))
    as [mw Hw].
  { intros Heq. apply (f_equal length) in Heq.
    rewrite length_angle_row in Heq. simpl in Heq. lia. }
  unfold np_max_axis1. simpl mapM. rewrite Hp, Hr, Hw.
  change (Ok ?a ≫= ?k) with (k a); cbv beta.
  destruct (count_hit_objects (hit_objects b)) as [[circles sliders] spinners].
  destruct (easy_hard_rock e hr (od b) (ar b)) as [od' ar'].
  destruct (half_double_time ht dt ar' (bpm_min b) (bpm_max b))
    as [[ar'' bpm_min'] bpm_max'].
  eauto.
Qed.

(** [extract_features] raises on a beatmap with fewer than two hit
    objects that are not spinners. *)
Lemma extract_features_raises (b : Beatmap) (e h hr dt r ht f : bool) :
  (length (hit_objects_no_spinners b) < 2)%nat →
  extract_features b e h hr dt r ht f = Raise ValueError.
Proof.
  intros Hlen. unfold extract_features.
  destruct (hit_objects_no_spinners b) as [|h1 [|h2 hs]];
    [reflexivity | reflexivity | simpl in Hlen; lia].
Qed.

(** ** The dictionary of features *)

Section features_by_name.

Variables (b : Beatmap) (e h hr dt ht f : bool).
Variables (od' ar' bpm_min' bpm_max' : Q) (circles sliders spinners : nat).
Variables (mean_angles median_angles max_angles : list Q).

Local Abbreviation fv :=
  (features_by_name b e h hr dt ht f od' ar' bpm_min' bpm_max'
     circles sliders spinners mean_angles median_angles max_angles).

Lemma features_by_name_dom : dom fv = feature_names.
Proof.
  unfold features_by_name, feature_names.
  rewrite dom_list_to_map_L. simpl fmap. set_solver.
Qed.

Lemma features_by_name_columns :
  (sorted (map_to_list fv) _fst).*1 = feature_columns.
Proof. vm_compute. exact eq_refl. Qed.

Lemma features_by_name_HP : fv !! "HP" = Some (hp b).
Proof. reflexivity. Qed.

Lemma features_by_name_CS : fv !! "CS" = Some (cs b).
Proof. reflexivity. Qed.

Lemma features_by_name_OD : fv !! "OD" = Some od'.
Proof. reflexivity. Qed.

Lemma features_by_name_AR : fv !! "AR" = Some ar'.
Proof. reflexivity. Qed.

Lemma features_by_name_bpm_min : fv !! "bpm-min" = Some bpm_min'.
Proof. reflexivity. Qed.

Lemma features_by_name_bpm_max : fv !! "bpm-max" = Some bpm_max'.
Proof. reflexivity. Qed.

Lemma features_by_name_relax : fv !! "relax" = None.
Proof. reflexivity. Qed.

Lemma features_by_name_angle (statistic kind : string) (angles : list Q) (i : nat) :
  (statistic, angles) ∈ [("mean", mean_angles); ("median", median_angles);
                         ("max", max_angles)] →
  (kind, i) ∈ [("pitch", pitch); ("roll", roll); ("yaw", yaw)] →
  fv !! (statistic +:+ "-" +:+ kind) = Some (angles !!! i).
Proof.
  intros Hs Hk.
  repeat (apply elem_of_cons in Hs as [Hs|Hs];
          [injection Hs as -> ->|]); [| | |by apply elem_of_nil in Hs];
  (repeat (apply elem_of_cons in Hk as [Hk|Hk];
           [injection Hk as -> ->|]); [| | |by apply elem_of_nil in Hk]);
  reflexivity.
Qed.

End features_by_name.

(** The columns are the feature names, each once, in ascending order. *)
Lemma feature_columns_names : list_to_set feature_columns = feature_names.
Proof. unfold feature_columns, feature_names. simpl list_to_set. set_solver. Qed.

Lemma feature_columns_ascending :
  StronglySorted (λ a b, String.ltb a b = true) feature_columns.
Proof.
  unfold feature_columns.
  repeat (constructor; [|by repeat (constructor; [vm_compute; reflexivity|])]).
  constructor.
Qed.

(** ** The feature vector *)

(** C5, as amended.  For every beatmap with at least two hit objects
    that are not spinners and every combination of the modifier flags,
    [extract_features] returns a mapping whose key set is exactly the
    fixed set of feature names (HP, CS, OD, AR, the six modifier flags,
    bpm-min, bpm-max, the three object counts, slider-multiplier,
    slider-tick-rate and the nine angle statistics); sorting its items by
    key gives the same list of columns on every call. *)
Theorem extract_features_keys (b : Beatmap) (e h hr dt r ht f : bool) :
  (2 ≤ length (hit_objects_no_spinners b))%nat →
  ∃ fv, extract_features b e h hr dt r ht f = Ok fv ∧
        dom fv = feature_names ∧
        (sorted (map_to_list fv) _fst).*1 = feature_columns.
Proof.
  intros Hlen.
  destruct (extract_features_returns b e h hr dt r ht f Hlen) as [fv Hfv].
  exists fv. split; [done|].
  apply extract_features_Ok in Hfv as (angles & max_angles & _ & _ & ->).
  split; [apply features_by_name_dom | apply features_by_name_columns].
Qed.

(** C6.  With every modifier flag false the difficulty values of the
    output are those of the beatmap: the two stages of the resolution
    are the identity, and the OD, AR, HP, CS, bpm-min and bpm-max entries
    of the feature vector are the [od], [ar], [hp], [cs], [bpm_min] and
    [bpm_max] of the beatmap. *)
Theorem no_mod_identity (b : Beatmap) :
  easy_hard_rock false false (od b) (ar b) = (od b, ar b) ∧
  half_double_time false false (ar b) (bpm_min b) (bpm_max b)
    = (ar b, bpm_min b, bpm_max b) ∧
  ∀ fv : gmap string Q,
    extract_features b false false false false false false false = Ok fv →
    fv !! "OD" = Some (od b) ∧
    fv !! "AR" = Some (ar b) ∧
    fv !! "HP" = Some (hp b) ∧
    fv !! "CS" = Some (cs b) ∧
    fv !! "bpm-min" = Some (bpm_min b) ∧
    fv !! "bpm-max" = Some (bpm_max b).
Proof.
  split; [reflexivity|]. split; [reflexivity|].
  intros fv Hfv.
  apply extract_features_Ok in Hfv as (angles & max_angles & _ & _ & ->).
  repeat split; reflexivity.
Qed.

(** C7.  Whatever the modifier flags (easy, hidden, hard_rock,
    double_time, half_time, flashlight, relax), the HP and CS entries of
    the feature vector are the [hp] and [cs] of the beatmap: no flag
    changes them. *)
Theorem hp_cs_unchanged (b : Beatmap) (e h hr dt r ht f : bool)
    (fv : gmap string Q) :
  extract_features b e h hr dt r ht f = Ok fv →
  fv !! "HP" = Some (hp b) ∧ fv !! "CS" = Some (cs b).
Proof.
  intros Hfv.
  apply extract_features_Ok in Hfv as (angles & max_angles & _ & _ & ->).
  split; [apply features_by_name_HP | apply features_by_name_CS].
Qed.

(** C10.  [extract_features] gives the same outcome with [relax] true
    and with [relax] false, the other arguments being the same; and no
    feature vector it returns has a key [relax]. *)
Theorem relax_ignored (b : Beatmap) (e h hr dt ht f : bool) :
  extract_features b e h hr dt true ht f
  = extract_features b e h hr dt false ht f ∧
  ∀ (r : bool) (fv : gmap string Q),
    extract_features b e h hr dt r ht f = Ok fv →
    fv !! "relax" = None ∧ "relax" ∉ dom fv.
Proof.
  split; [reflexivity|].
  intros r fv Hfv.
  apply extract_features_Ok in Hfv as (angles & max_angles & _ & _ & ->).
  split; [apply features_by_name_relax|].
  apply not_elem_of_dom, features_by_name_relax.
Qed.

(** C3, as amended.  When the easy and the hard_rock flags are both
    set, the resolution applies the halving of easy (OD becomes OD / 2
    and AR becomes AR / 2, before the half time or double time
    conversion of AR) and not the transformation of hard_rock: easy
    wins. *)
Theorem easy_wins_over_hard_rock (b : Beatmap) :
  easy_hard_rock true true (od b) (ar b) = ((od b / 2)%Q, (ar b / 2)%Q) ∧
  ∀ (h dt r ht f : bool) (fv : gmap string Q),
    extract_features b true h true dt r ht f = Ok fv →
    fv !! "OD" = Some (od b / 2)%Q ∧
    fv !! "AR"
    = Some (half_double_time ht dt (ar b / 2)%Q (bpm_min b) (bpm_max b)).1.1 ∧
    (ht = false → dt = false → fv !! "AR" = Some (ar b / 2)%Q).
Proof.
  split; [reflexivity|].
  intros h dt r ht f fv Hfv.
  apply extract_features_Ok in Hfv as (angles & max_angles & _ & _ & ->).
  split; [reflexivity|]. split; [reflexivity|].
  by intros -> ->.
Qed.

Lemma py_min_le_r (a c : Q) : (py_min a c <= c)%Q.
Proof. unfold py_min. destruct (Qlt_le_dec c a); lra. Qed.

(** C4, as amended.  For OD and AR in [0, 10], with hard_rock set and
    easy unset the resolution gives no OD greater than 10, and no AR
    greater than 10 unless double_time applies (double_time set and
    half_time unset): the two values of the hard rock stage are at most
    10; the first is the OD entry of the feature vector; the second is
    its AR entry when neither half_time nor double_time is set; and with
    half_time the AR entry, which goes through [ar_to_ms] and
    [ms_to_ar], is at most 10 for every pair of conversions of which
    [ms_to_ar] does not increase and, on [0, 10], undoes [ar_to_ms],
    whose values there are not negative. *)
Theorem hard_rock_at_most_10 (b : Beatmap) :
  (0 <= od b)%Q → (od b <= 10)%Q → (0 <= ar b)%Q → (ar b <= 10)%Q →
  ∃ od' ar' : Q,
    easy_hard_rock false true (od b) (ar b) = (od', ar') ∧
    (od' <= 10)%Q ∧ (ar' <= 10)%Q ∧
    ∀ (h dt r ht f : bool) (fv : gmap string Q),
      extract_features b false h true dt r ht f = Ok fv →
      fv !! "OD" = Some od' ∧
      fv !! "AR"
      = Some (half_double_time ht dt ar' (bpm_min b) (bpm_max b)).1.1 ∧
      (ht = false → dt = false → fv !! "AR" = Some ar') ∧
      (ht = true →
       (∀ ms ms' : Q, (ms <= ms')%Q → (ms_to_ar ms' <= ms_to_ar ms)%Q) →
       (∀ a : Q, (0 <= a)%Q → (a <= 10)%Q →
                 (ms_to_ar (ar_to_ms a) == a)%Q) →
       (∀ a : Q, (0 <= a)%Q → (a <= 10)%Q → (0 <= ar_to_ms a)%Q) →
       ∃ v : Q, fv !! "AR" = Some v ∧ (v <= 10)%Q).
Proof.
  intros _ _ Har0 _.
  exists (py_min (1.4 * od b) 10), (py_min (1.4 * ar b) 10).
  split; [reflexivity|].
  split; [apply py_min_le_r|]. split; [apply py_min_le_r|].
  intros h dt r ht f fv Hfv.
  apply extract_features_Ok in Hfv as (angles & max_angles & _ & _ & ->).
  split; [reflexivity|]. split; [reflexivity|].
  split; [by intros -> ->|].
  intros -> Hdecreasing Hinverse Hpositive.
  exists (ms_to_ar (4 * ar_to_ms (py_min (1.4 * ar b) 10) / 3)%Q).
  split; [reflexivity|].
  set (ar' := py_min (1.4 * ar b) 10).
  assert (0 <= ar')%Q as Har'0.
  { unfold ar', py_min. destruct (Qlt_le_dec 10 (1.4 * ar b)); lra. }
  assert (ar' <= 10)%Q as Har'10 by apply py_min_le_r.
  pose proof (Hpositive ar' Har'0 Har'10) as Hms.
  pose proof (Hinverse ar' Har'0 Har'10) as Hback.
  assert (ar_to_ms ar' <= 4 * ar_to_ms ar' / 3)%Q as Hlonger.
  { unfold Qdiv. change (/ 3)%Q with (1 # 3)%Q. lra. }
  pose proof (Hdecreasing _ _ Hlonger). lra.
Qed.

(** ** The angle statistics of two hit objects *)

Lemma np_mean_singleton (v : Q) : (np_mean [v] == v)%Q.
Proof. unfold np_mean, np_sum. simpl. field. Qed.

Lemma np_median_singleton (v : Q) : np_median [v] = np_mean [v].
Proof. reflexivity. Qed.

Lemma np_max_singleton (v : Q) : np_max [v] = Ok v.
Proof. reflexivity. Qed.

(** C9.  When exactly two hit objects are not spinners (a single
    displacement), [extract_features] returns, and for each kind of
    angle (pitch, roll, yaw) the mean, the median and the maximum it
    returns are equal: this input is valid. *)
Theorem two_hit_objects_statistics_agree (b : Beatmap)
    (e h hr dt r ht f : bool) :
  length (hit_objects_no_spinners b) = 2%nat →
  ∃ fv, extract_features b e h hr dt r ht f = Ok fv ∧
        statistics_agree fv "pitch" ∧
        statistics_agree fv "roll" ∧
        statistics_agree fv "yaw".
Proof.
  intros Hlen.
  destruct (extract_features_returns b e h hr dt r ht f) as [fv Hfv];
    [lia|].
  exists fv. split; [done|].
  apply extract_features_Ok in Hfv as (angles & max_angles & Ha & Hm & ->).
  destruct (hit_objects_no_spinners b) as [|h1 [|h2 [|h3 hs]]];
    try discriminate Hlen.
  injection Ha as <-. injection Hm as <-.
  repeat split; unfold statistics_agree;
    (eexists _, _, _;
     split; [reflexivity|]; split; [reflexivity|]; split; [reflexivity|];
     split; [reflexivity | apply np_mean_singleton]).
Qed.

(** ** The data set *)

Lemma filter_fmap {A B : Type} (g : A → B) (P : B → Prop)
    `{!∀ x, Decision (P x)} (l : list A) :
  filter P (g <$> l) = g <$> filter (λ a, P (g a)) l.
Proof.
  induction l as [|a l IH]; [done|].
  rewrite fmap_cons, !filter_cons, IH.
  by destruct (decide (P (g a))).
Qed.

Lemma filter_Forall {A : Type} (P : A → Prop) `{!∀ x, Decision (P x)}
    (l : list A) :
  Forall P l → filter P l = l.
Proof.
  induction 1 as [|a l Ha _ IH]; [done|].
  rewrite filter_cons, decide_True by done. by rewrite IH.
Qed.

(** The loop of [extract_from_replay_directory] appends, in the order of
    the entries, the beatmap, the mods and the accuracy of each counted
    entry. *)
Lemma replay_loop (age : option Z) (entries : list DirEntry)
    (beatmaps_and_mods : list (Beatmap * gmap string bool))
    (accuracies : list Q) :
  foldl (λ '(beatmaps_and_mods, accuracies) entry,
           if negb (endswith (name entry) ".osr")
           then (beatmaps_and_mods, accuracies)
           else
             let replay := from_path entry in
             if match age with
                | Some age =>
                    bool_decide (age < utcnow entry - timestamp replay)%Z
                | None => false
                end
             then (beatmaps_and_mods, accuracies)
             else if unrepresentative replay
             then (beatmaps_and_mods, accuracies)
             else
               (beatmaps_and_mods ++
                  [(beatmap replay,
                    ({[ "easy" := easy replay;
                        "hidden" := hidden replay;
                        "hard_rock" := hard_rock replay;
                        "double_time" := double_time replay;
                        "half_time" := half_time replay;
                        "flashlight" := flashlight replay ]}
                     : gmap string bool))],
                accuracies ++ [accuracy replay]))
        (beatmaps_and_mods, accuracies) entries
  = (beatmaps_and_mods ++
       ((λ e, (beatmap (from_path e), mods_of (from_path e)))
          <$> filter (λ e, counted age e) entries),
     accuracies ++
       ((λ e, accuracy (from_path e)) <$> filter (λ e, counted age e) entries)).
Proof.
  revert beatmaps_and_mods accuracies.
  induction entries as [|entry entries IH]; intros beatmaps_and_mods accuracies.
  - simpl. by rewrite !app_nil_r.
  - cbn [foldl]. cbv beta iota zeta.
    destruct (endswith (name entry) ".osr") eqn:Hname; cbn [negb];
      [|rewrite IH, filter_cons, decide_False;
        [done | unfold counted; rewrite Hname; cbn; tauto]].
    destruct (match age with
              | Some age0 =>
                  bool_decide
                    (age0 < utcnow entry - timestamp (from_path entry))%Z
              | None => false
              end) eqn:Hage;
      [rewrite IH, filter_cons, decide_False;
        [done | unfold counted, too_old; rewrite Hname, Hage; cbn; tauto]|].
    destruct (unrepresentative (from_path entry)) eqn:Hmods;
      [rewrite IH, filter_cons, decide_False;
        [done
        |unfold counted, too_old; rewrite Hname, Hage, Hmods; cbn; tauto]|].
    rewrite IH, filter_cons, decide_True
      by (unfold counted, too_old; rewrite Hname, Hage, Hmods; cbn; tauto).
    rewrite !fmap_cons. by rewrite <- !app_assoc.
Qed.

Lemma extract_from_replay_directory_counted
    (entries : list DirEntry) (age : option Z) :
  extract_from_replay_directory entries age
  = (features ← extract_feature_array
                  ((λ e, (beatmap (from_path e), mods_of (from_path e)))
                     <$> filter (λ e, counted age e) entries);
     mret (features,
           (λ e, accuracy (from_path e))
             <$> filter (λ e, counted age e) entries)).
Proof.
  unfold extract_from_replay_directory. by rewrite replay_loop.
Qed.

Lemma counted_representative (age : option Z) (entry : DirEntry) :
  counted age entry → unrepresentative (from_path entry) = false.
Proof.
  unfold counted. destruct (unrepresentative (from_path entry)); [|done].
  rewrite andb_false_r. intros [].
Qed.

(** The rows and the labels, when [extract_from_replay_directory]
    returns: the labels are the accuracies of the counted entries, the
    rows those of the counted entries whose beatmap has two hit objects
    or more. *)
Lemma extract_from_replay_directory_Ok (entries : list DirEntry)
    (age : option Z) (features : list (list Q)) (accuracies : list Q) :
  extract_from_replay_directory entries age = Ok (features, accuracies) →
  accuracies
  = (λ e, accuracy (from_path e)) <$> filter (λ e, counted age e) entries ∧
  Forall2 (λ e row,
             feature_row (beatmap (from_path e), mods_of (from_path e))
             = Ok row)
          (filter (λ e, has_two_hit_objects (beatmap (from_path e)))
                  (filter (λ e, counted age e) entries))
          features.
Proof.
  rewrite extract_from_replay_directory_counted. intros H.
  apply result_bind_Ok in H as (rows & Hrows & H).
  injection H as <- <-. split; [done|].
  unfold extract_feature_array in Hrows.
  apply mapM_result_Ok in Hrows.
  rewrite (filter_fmap _ (λ beatmap_and_mods,
             (2 ≤ length (hit_objects beatmap_and_mods.1))%nat)) in Hrows.
  by apply Forall2_fmap_l in Hrows.
Qed.

(** C8.  A record with any of autoplay, spun_out, auto_pilot, cinema or
    relax set contributes no row and no label: taking these records out
    of the corpus changes nothing in what
    [extract_from_replay_directory] gives; and what it returns comes
    from the remaining counted records in the order of the enumeration:
    the labels are their accuracies, the rows are the rows of those
    among them that pass the guard of [extract_feature_array]. *)
Theorem unrepresentative_replays_left_out (entries : list DirEntry)
    (age : option Z) :
  extract_from_replay_directory
    (filter (λ e, unrepresentative (from_path e) = false) entries) age
  = extract_from_replay_directory entries age ∧
  ∀ (features : list (list Q)) (accuracies : list Q),
    extract_from_replay_directory entries age = Ok (features, accuracies) →
    let kept := filter (λ e, counted age e) entries in
    kept `sublist_of` entries ∧
    Forall (λ e, unrepresentative (from_path e) = false) kept ∧
    accuracies = (λ e, accuracy (from_path e)) <$> kept ∧
    Forall2 (λ e row,
               feature_row (beatmap (from_path e), mods_of (from_path e))
               = Ok row)
            (filter (λ e, has_two_hit_objects (beatmap (from_path e))) kept)
            features.
Proof.
  split.
  - rewrite !extract_from_replay_directory_counted.
    by rewrite list_filter_filter_l by apply counted_representative.
  - intros features accuracies H kept.
    apply extract_from_replay_directory_Ok in H as [Hacc Hrows].
    split; [apply sublist_filter|].
    split; [|done].
    apply Forall_forall. intros e He.
    apply list_elem_of_filter in He as [He _].
    by apply (counted_representative age).
Qed.

(** When every counted entry has a beatmap of two hit objects or more,
    the rows and the labels are aligned: row [i] and label [i] come from
    the same entry. *)
Lemma rows_and_labels_aligned (entries : list DirEntry) (age : option Z)
    (features : list (list Q)) (accuracies : list Q) :
  Forall (λ e, has_two_hit_objects (beatmap (from_path e)))
         (filter (λ e, counted age e) entries) →
  extract_from_replay_directory entries age = Ok (features, accuracies) →
  length features = length accuracies ∧
  ∀ (i : nat) (e : DirEntry),
    filter (λ e, counted age e) entries !! i = Some e →
    accuracies !! i = Some (accuracy (from_path e)) ∧
    ∃ row, features !! i = Some row ∧
           feature_row (beatmap (from_path e), mods_of (from_path e)) = Ok row.
Proof.
  intros Hall H.
  apply extract_from_replay_directory_Ok in H as [-> Hrows].
  set (kept := filter (λ e, counted age e) entries) in *.
  assert (filter (λ e, has_two_hit_objects (beatmap (from_path e))) kept = kept)
    as Hkept.
  { by apply filter_Forall. }
  rewrite Hkept in Hrows. split.
  - rewrite length_fmap. symmetry. by eapply Forall2_length.
  - intros i e Hi. split.
    + by rewrite list_lookup_fmap, Hi.
    + destruct (Forall2_lookup_l _ _ _ _ _ Hrows Hi) as (row & Hrow & Hok).
      eauto.
Qed.

(** ** Further properties of the specification *)

Lemma count_loop (hit_objects : list HitObject) (circles sliders spinners : nat) :
  let counts :=
    foldl (λ '(circles, sliders, spinners) hit_object,
             if decide (class hit_object = Circle)
             then (circles + 1, sliders, spinners)%nat
             else if decide (class hit_object = Slider)
             then (circles, sliders + 1, spinners)%nat
             else (circles, sliders, spinners + 1)%nat)
          (circles, sliders, spinners) hit_objects in
  (counts.1.1 + counts.1.2 + counts.2
   = circles + sliders + spinners + length hit_objects)%nat.
Proof.
  revert circles sliders spinners.
  induction hit_objects as [|h hs IH]; intros circles sliders spinners.
  - simpl. lia.
  - cbn [foldl]. cbv beta iota zeta.
    destruct (decide (class h = Circle));
      [|destruct (decide (class h = Slider))];
      cbv zeta in IH; rewrite IH; simpl length; lia.
Qed.

(** The object counter: the three counts add up to the number of hit
    objects. *)
Theorem count_hit_objects_total (hit_objects : list HitObject) :
  ((count_hit_objects hit_objects).1.1 + (count_hit_objects hit_objects).1.2
   + (count_hit_objects hit_objects).2 = length hit_objects)%nat.
Proof. unfold count_hit_objects. by rewrite count_loop. Qed.

(** [extract_features] returns exactly on the beatmaps with two hit
    objects or more that are not spinners; on the others it raises
    [ValueError]. *)
Theorem extract_features_returns_iff (b : Beatmap) (e h hr dt r ht f : bool) :
  ((∃ fv, extract_features b e h hr dt r ht f = Ok fv) ↔
   (2 ≤ length (hit_objects_no_spinners b))%nat) ∧
  (extract_features b e h hr dt r ht f = Raise ValueError ↔
   (length (hit_objects_no_spinners b) < 2)%nat).
Proof.
  destruct (decide (2 ≤ length (hit_objects_no_spinners b))%nat) as [Hlen|Hlen].
  - destruct (extract_features_returns b e h hr dt r ht f Hlen) as [fv Hfv].
    split; split; try (rewrite Hfv; discriminate); try lia; eauto.
  - rewrite (extract_features_raises b e h hr dt r ht f) by lia.
    split; split; try done; try lia. by intros [fv Hfv].
Qed.

(** When half_time and double_time are both set, the half time
    conversion applies: the AR goes through 4/3 of its milliseconds and
    the two bpm values are multiplied by 0.75. *)
Theorem half_time_wins_over_double_time (b : Beatmap) :
  (∀ ar' : Q,
     half_double_time true true ar' (bpm_min b) (bpm_max b)
     = (ms_to_ar (4 * ar_to_ms ar' / 3)%Q,
        (bpm_min b * 0.75)%Q, (bpm_max b * 0.75)%Q)) ∧
  ∀ (e h hr r f : bool) (fv : gmap string Q),
    extract_features b e h hr true r true f = Ok fv →
    fv !! "bpm-min" = Some (bpm_min b * 0.75)%Q ∧
    fv !! "bpm-max" = Some (bpm_max b * 0.75)%Q ∧
    fv !! "AR"
    = Some (ms_to_ar
              (4 * ar_to_ms (easy_hard_rock e hr (od b) (ar b)).2 / 3)%Q).
Proof.
  split; [done|].
  intros e h hr r f fv Hfv.
  apply extract_features_Ok in Hfv as (angles & max_angles & _ & _ & ->).
  repeat split; reflexivity.
Qed.

Lemma length_sorted_items (fv : gmap string Q) :
  length (sorted (map_to_list fv) _fst).*2
  = length (sorted (map_to_list fv) _fst).*1.
Proof. by rewrite !length_fmap. Qed.

Lemma feature_row_length (b : Beatmap) (mods : gmap string bool)
    (row : list Q) :
  feature_row (b, mods) = Ok row → length row = 26%nat.
Proof.
  unfold feature_row, extract_features_kw. intros H.
  apply result_bind_Ok in H as (fv & Hfv & H). injection H as <-.
  destruct (decide (dom mods ⊆ extract_features_keywords)); [|discriminate].
  apply extract_features_Ok in Hfv as (angles & max_angles & _ & _ & ->).
  by rewrite length_sorted_items, features_by_name_columns.
Qed.

(** [extract_feature_array], when it returns, gives one row of 26
    columns for each pair whose beatmap has two hit objects or more, and
    none for the others. *)
Theorem extract_feature_array_rows
    (beatmaps_and_mods : list (Beatmap * gmap string bool))
    (features : list (list Q)) :
  extract_feature_array beatmaps_and_mods = Ok features →
  length features
  = length (filter (λ beatmap_and_mods,
                      has_two_hit_objects beatmap_and_mods.1)
                   beatmaps_and_mods) ∧
  Forall (λ row, length row = 26%nat) features.
Proof.
  unfold extract_feature_array. intros H.
  apply mapM_result_Ok in H. split.
  - symmetry. by eapply Forall2_length.
  - induction H as [|[b mods] row l k Hrow _ IH]; constructor; [|done].
    by eapply feature_row_length.
Qed.

Lemma counted_up_to_age (age : Z) (entry : DirEntry) :
  counted (Some age) entry ↔
  endswith (name entry) ".osr" = true ∧
  (utcnow entry - timestamp (from_path entry) ≤ age)%Z ∧
  unrepresentative (from_path entry) = false.
Proof.
  unfold counted, too_old.
  destruct (endswith (name entry) ".osr"),
           (unrepresentative (from_path entry));
    cbn [andb negb]; rewrite ?andb_false_r, ?andb_true_r;
    try (split; [intros [] | intros (? & ? & ?); discriminate]).
  split.
  - intros Hyoung. split; [done|]. split; [|done].
    apply Is_true_true, negb_true_iff, bool_decide_eq_false in Hyoung. lia.
  - intros (_ & Hyoung & _).
    apply Is_true_true, negb_true_iff, bool_decide_eq_false. lia.
Qed.

(** With a greatest age, the labels that [extract_from_replay_directory]
    returns are the accuracies, in the order of the enumeration, of the
    entries named [*.osr] whose replay has no excluded mod and is at
    most that old ([utcnow - timestamp <= age]): a replay of exactly the
    greatest age is kept. *)
Theorem replays_up_to_age_kept (entries : list DirEntry) (age : Z)
    (features : list (list Q)) (accuracies : list Q) :
  extract_from_replay_directory entries (Some age)
  = Ok (features, accuracies) →
  accuracies
  = (λ e, accuracy (from_path e))
      <$> filter (λ e, endswith (name e) ".osr" = true ∧
                       (utcnow e - timestamp (from_path e) ≤ age)%Z ∧
                       unrepresentative (from_path e) = false)
                 entries.
Proof.
  intros Hok.
  apply extract_from_replay_directory_Ok in Hok as [-> _].
  f_equal. apply list_filter_iff. intros e. apply counted_up_to_age.
Qed.

(** ** The coordinates and the angles *)

(** The coordinate array has three rows of one column per hit object,
    in the order of the hit objects: column [i] holds the x and y of the
    position of hit object [i] and its time in hundredths of a second. *)
Theorem hit_object_coordinates_columns (hit_objects : list HitObject) :
  ∃ xs ys zs : list Q,
    hit_object_coordinates hit_objects = [xs; ys; zs] ∧
    length xs = length hit_objects ∧
    length ys = length hit_objects ∧
    length zs = length hit_objects ∧
    ∀ (i : nat) (hit_object : HitObject),
      hit_objects !! i = Some hit_object →
      xs !! i = Some (x (position hit_object)) ∧
      ys !! i = Some (y (position hit_object)) ∧
      zs !! i = Some (inject_Z (time hit_object) / 1000000 * 100)%Q.
Proof.
  rewrite hit_object_coordinates_rows. eexists _, _, _.
  split; [reflexivity|]. rewrite !length_fmap.
  do 3 (split; [reflexivity|]).
  intros i hit_object Hi. rewrite !list_lookup_fmap, Hi. done.
Qed.

Lemma np_diff_lookup (a : list Q) (i : nat) (u v : Q) :
  a !! i = Some u → a !! S i = Some v → np_diff a !! i = Some (v - u)%Q.
Proof.
  revert i. induction a as [|a0 [|a1 rest] IH]; intros i Hu Hv; try done.
  destruct i as [|i].
  - simpl in *. by injection Hu as <-; injection Hv as <-.
  - change (np_diff (a0 :: a1 :: rest)) with ((a1 - a0)%Q :: np_diff (a1 :: rest)).
    rewrite lookup_cons. by apply IH.
Qed.

(** The angles of a non-empty sequence of hit objects: three rows with
    one column for each pair of consecutive hit objects, and column [i]
    is computed from the hit objects [i] and [i + 1] alone: the pitch is
    [arctan2(dy, dz)], the roll [arctan2(dy, dx)] and the yaw
    [arctan2(dz, dx)] of their differences in x, y and z (the time in
    hundredths of a second). *)
Theorem hit_object_angles_between (hit_objects : list HitObject) :
  hit_objects ≠ [] →
  ∃ pitches rolls yaws : list Q,
    hit_object_angles hit_objects = Ok [pitches; rolls; yaws] ∧
    length pitches = (length hit_objects - 1)%nat ∧
    length rolls = (length hit_objects - 1)%nat ∧
    length yaws = (length hit_objects - 1)%nat ∧
    ∀ (i : nat) (h1 h2 : HitObject),
      hit_objects !! i = Some h1 →
      hit_objects !! S i = Some h2 →
      let dx := (x (position h2) - x (position h1))%Q in
      let dy := (y (position h2) - y (position h1))%Q in
      let dz := (total_seconds (time h2) * 100
                 - total_seconds (time h1) * 100)%Q in
      pitches !! i = Some (arctan2 dy dz) ∧
      rolls !! i = Some (arctan2 dy dx) ∧
      yaws !! i = Some (arctan2 dz dx).
Proof.
  intros Hne. rewrite hit_object_angles_rows by done. cbv zeta.
  eexists _, _, _. split; [reflexivity|].
  rewrite !length_zip_with, !length_np_diff, !length_fmap.
  do 3 (split; [lia|]).
  intros i h1 h2 H1 H2.
  assert (((λ h, x (position h)) <$> hit_objects) !! i
          = Some (x (position h1))) as Hx1 by (by rewrite list_lookup_fmap, H1).
  assert (((λ h, x (position h)) <$> hit_objects) !! S i
          = Some (x (position h2))) as Hx2 by (by rewrite list_lookup_fmap, H2).
  assert (((λ h, y (position h)) <$> hit_objects) !! i
          = Some (y (position h1))) as Hy1 by (by rewrite list_lookup_fmap, H1).
  assert (((λ h, y (position h)) <$> hit_objects) !! S i
          = Some (y (position h2))) as Hy2 by (by rewrite list_lookup_fmap, H2).
  assert (((λ h, (total_seconds (time h) * 100)%Q) <$> hit_objects) !! i
          = Some (total_seconds (time h1) * 100)%Q) as Hz1
    by (by rewrite list_lookup_fmap, H1).
  assert (((λ h, (total_seconds (time h) * 100)%Q) <$> hit_objects) !! S i
          = Some (total_seconds (time h2) * 100)%Q) as Hz2
    by (by rewrite list_lookup_fmap, H2).
  rewrite !lookup_zip_with.
  rewrite (np_diff_lookup _ _ _ _ Hx1 Hx2), (np_diff_lookup _ _ _ _ Hy1 Hy2),
    (np_diff_lookup _ _ _ _ Hz1 Hz2).
  done.
Qed.

(** ** Bounds of the angle statistics *)

Lemma np_sum_bounds (a : list Q) (m : Q) :
  Forall (λ v, 0 <= v ∧ v <= m)%Q a →
  (0 <= np_sum a ∧ np_sum a <= m * inject_Z (Z.of_nat (length a)))%Q.
Proof.
  induction 1 as [|v a [Hv0 Hvm] _ [IH0 IHm]].
  - change (np_sum []) with 0%Q.
    change (inject_Z (Z.of_nat (length (@nil Q)))) with 0%Q. lra.
  - change (np_sum (v :: a)) with (v + np_sum a)%Q.
    rewrite length_cons, Nat2Z.inj_succ. unfold Z.succ.
    rewrite inject_Z_plus. change (inject_Z 1) with 1%Q. lra.
Qed.

Lemma np_mean_bounds (a : list Q) (m : Q) :
  (0 <= m)%Q →
  Forall (λ v, 0 <= v ∧ v <= m)%Q a →
  (0 <= np_mean a ∧ np_mean a <= m)%Q.
Proof.
  intros Hm Ha. destruct (np_sum_bounds a m Ha) as [H0 Hs].
  unfold np_mean. destruct a as [|v a].
  - assert (np_sum [] / inject_Z (Z.of_nat (length (@nil Q))) == 0)%Q as ->
      by reflexivity.
    lra.
  - assert (0 < inject_Z (Z.of_nat (length (v :: a))))%Q as Hn.
    { change 0%Q with (inject_Z 0). rewrite <- Zlt_Qlt. simpl length. lia. }
    split.
    + apply Qle_shift_div_l; [done|]. lra.
    + apply Qle_shift_div_r; [done|]. lra.
Qed.

Lemma foldl_Qmax_bounds (a : list Q) (m0 : Q) :
  (m0 <= foldl Qmax m0 a)%Q ∧ Forall (λ v, v <= foldl Qmax m0 a)%Q a.
Proof.
  revert m0. induction a as [|v a IH]; intros m0; simpl.
  - split; [lra | constructor].
  - destruct (IH (Qmax m0 v)) as [Hm Ha].
    pose proof (Q.le_max_l m0 v). pose proof (Q.le_max_r m0 v).
    split; [lra|]. constructor; [lra | done].
Qed.

Lemma np_max_bounds (a : list Q) (m : Q) :
  np_max a = Ok m → a ≠ [] ∧ Forall (λ v, v <= m)%Q a.
Proof.
  destruct a as [|v a]; [discriminate|]. simpl. intros [= <-].
  destruct (foldl_Qmax_bounds a v) as [Hv Ha].
  split; [done|]. by constructor.
Qed.

Lemma sorted_slice_subseteq (a : list Q) (n i : nat) :
  take n (drop i (merge_sort Qle a)) ⊆ a.
Proof.
  intros v Hv.
  rewrite <- (merge_sort_Permutation Qle a).
  eapply elem_of_sublist; [exact Hv|].
  etrans; [apply sublist_take | apply sublist_drop].
Qed.

Lemma np_median_slice (a : list Q) :
  ∃ middle : list Q, np_median a = np_mean middle ∧ middle ⊆ a.
Proof.
  unfold np_median.
  destruct (bool_decide (length a `mod` 2 = 1)%nat);
    eexists; (split; [reflexivity | apply sorted_slice_subseteq]).
Qed.

(** Of a row of absolute values with maximum [m], the mean is not
    negative and the median lies between 0 and [m]. *)
Lemma row_statistics_bounds (a : list Q) (m : Q) :
  np_max (Qabs <$> a) = Ok m →
  (0 <= np_mean (Qabs <$> a) ∧
   0 <= np_median (Qabs <$> a) ∧ np_median (Qabs <$> a) <= m)%Q.
Proof.
  intros Hmax. apply np_max_bounds in Hmax as [Hne Hmax].
  assert (Forall (λ v, 0 <= v ∧ v <= m)%Q (Qabs <$> a)) as Hall.
  { apply Forall_forall. intros v Hv. split.
    - apply list_elem_of_fmap in Hv as (u & -> & _). apply Qabs_nonneg.
    - by apply (proj1 (Forall_forall _ _) Hmax). }
  assert (0 <= m)%Q as Hm.
  { destruct (Qabs <$> a) as [|v l]; [done|].
    apply Forall_cons in Hall as [[? ?] _]. lra. }
  destruct (np_mean_bounds _ m Hm Hall) as [? _].
  destruct (np_median_slice (Qabs <$> a)) as (middle & -> & Hsub).
  destruct (np_mean_bounds middle m Hm) as [? ?]; [|done].
  apply Forall_forall. intros v Hv.
  by apply (proj1 (Forall_forall _ _) Hall), Hsub.
Qed.

(** In every feature vector that [extract_features] returns, for each
    kind of angle the mean of the absolute angles is not negative and
    their median lies between 0 and their maximum. *)
Theorem angle_statistics_bounded (b : Beatmap) (e h hr dt r ht f : bool)
    (fv : gmap string Q) :
  extract_features b e h hr dt r ht f = Ok fv →
  statistics_bounded fv "pitch" ∧
  statistics_bounded fv "roll" ∧
  statistics_bounded fv "yaw".
Proof.
  intros Hfv.
  apply extract_features_Ok in Hfv as (angles & max_angles & Ha & Hm & ->).
  destruct (decide (hit_objects_no_spinners b = [])) as [Hnil|Hne];
    [by rewrite Hnil in Ha|].
  rewrite hit_object_angles_rows in Ha by done. cbv zeta in Ha.
  injection Ha as <-.
  apply mapM_result_Ok in Hm.
  apply Forall2_cons_inv_l in Hm as (mp & ms & Hp & Hm & ->).
  apply Forall2_cons_inv_l in Hm as (mr & ms' & Hr & Hm & ->).
  apply Forall2_cons_inv_l in Hm as (mw & ms'' & Hw & Hm & ->).
  apply Forall2_nil_inv_l in Hm as ->.
  apply row_statistics_bounds in Hp as (? & ? & ?).
  apply row_statistics_bounds in Hr as (? & ? & ?).
  apply row_statistics_bounds in Hw as (? & ? & ?).
  repeat split; unfold statistics_bounded;
    (eexists _, _, _;
     split; [reflexivity|]; split; [reflexivity|]; split; [reflexivity|];
     by repeat split).
Qed.

(** ** Rows and keyword arguments *)

Lemma features_by_name_items (b : Beatmap) (e h hr dt ht f : bool)
    (od' ar' bpm_min' bpm_max' : Q) (circles sliders spinners : nat)
    (mean_angles median_angles max_angles : list Q) :
  sorted (map_to_list
            (features_by_name b e h hr dt ht f od' ar' bpm_min' bpm_max'
               circles sliders spinners
               mean_angles median_angles max_angles)) _fst
  = [ ("AR", ar'); ("CS", cs b); ("HP", hp b); ("OD", od');
      ("bpm-max", bpm_max'); ("bpm-min", bpm_min');
      ("circle-count", inject_Z (Z.of_nat circles));
      ("double_time", py_float dt); ("easy", py_float e);
      ("flashlight", py_float f); ("half_time", py_float ht);
      ("hard_rock", py_float hr); ("hidden", py_float h);
      ("max-pitch", max_angles !!! pitch); ("max-roll", max_angles !!! roll);
      ("max-yaw", max_angles !!! yaw);
      ("mean-pitch", mean_angles !!! pitch);
      ("mean-roll", mean_angles !!! roll); ("mean-yaw", mean_angles !!! yaw);
      ("median-pitch", median_angles !!! pitch);
      ("median-roll", median_angles !!! roll);
      ("median-yaw", median_angles !!! yaw);
      ("slider-count", inject_Z (Z.of_nat sliders));
      ("slider-multiplier", slider_multiplier b);
      ("slider-tick-rate", slider_tick_rate b);
      ("spinner-count", inject_Z (Z.of_nat spinners)) ].
Proof. vm_compute. exact eq_refl. Qed.

(** A row holds the features in the order of the columns: when the call
    of [extract_features] for a pair returns the mapping [fv], the row of
    the pair is the list of the values of [fv] at AR, CS, HP, OD,
    bpm-max, bpm-min, ... (the names in ascending order). *)
Theorem feature_row_by_column (b : Beatmap) (mods : gmap string bool)
    (fv : gmap string Q) :
  extract_features_kw b mods = Ok fv →
  ∃ row : list Q,
    feature_row (b, mods) = Ok row ∧
    Forall2 (λ name value, fv !! name = Some value) feature_columns row.
Proof.
  intros Hfv. unfold feature_row. rewrite Hfv.
  eexists. split; [reflexivity|].
  unfold extract_features_kw in Hfv.
  destruct (decide (dom mods ⊆ extract_features_keywords)); [|discriminate].
  apply extract_features_Ok in Hfv as (angles & max_angles & _ & _ & ->).
  rewrite features_by_name_items. unfold feature_columns.
  cbn [fmap list_fmap snd].
  repeat (constructor; [reflexivity|]). constructor.
Qed.

Lemma mods_of_keywords (replay : Replay) :
  dom (mods_of replay) ⊆ extract_features_keywords.
Proof.
  apply (bool_decide_unpack _). vm_compute. exact I.
Qed.

Lemma extract_features_kw_mods_of (b : Beatmap) (replay : Replay) :
  extract_features_kw b (mods_of replay)
  = extract_features b (easy replay) (hidden replay) (hard_rock replay)
      (double_time replay) false (half_time replay) (flashlight replay).
Proof.
  unfold extract_features_kw.
  rewrite decide_True by apply mods_of_keywords.
  reflexivity.
Qed.

(** The mods of a replay reach [extract_features] by keyword: each of
    the six flags of the replay is the argument of the same name, [relax]
    keeps its default [False], and the call raises no [TypeError]. *)
Theorem replay_flags_by_keyword (replay : Replay) :
  dom (mods_of replay)
  = {[ "easy"; "hidden"; "hard_rock"; "double_time"; "half_time";
       "flashlight" ]} ∧
  extract_features_kw (beatmap replay) (mods_of replay)
  = extract_features (beatmap replay)
      (easy replay) (hidden replay) (hard_rock replay)
      (double_time replay) false (half_time replay) (flashlight replay) ∧
  extract_features_kw (beatmap replay) (mods_of replay) ≠ Raise TypeError.
Proof.
  split; [apply (bool_decide_unpack _); vm_compute; exact I|].
  rewrite extract_features_kw_mods_of. split; [done|].
  destruct (decide (2 ≤ length (hit_objects_no_spinners (beatmap replay)))%nat)
    as [Hlen|Hlen].
  - destruct (extract_features_returns (beatmap replay) (easy replay)
                (hidden replay) (hard_rock replay) (double_time replay) false
                (half_time replay) (flashlight replay) Hlen) as [fv ->].
    discriminate.
  - rewrite extract_features_raises by lia. discriminate.
Qed.

Lemma mapM_result_app {A B} (f : A → result B) (l1 l2 : list A) :
  mapM f (l1 ++ l2)
  = (k1 ← mapM f l1; k2 ← mapM f l2; mret (k1 ++ k2)).
Proof.
  induction l1 as [|a l1 IH]; simpl.
  - by destruct (mapM f l2).
  - destruct (f a) as [b|err]; simpl; [|done].
    rewrite IH. destruct (mapM f l1) as [k1|err]; simpl; [|done].
    by destruct (mapM f l2).
Qed.

(** The feature array of two lists of pairs one after the other is the
    array of the first followed by the array of the second; it raises
    what the first raises, else what the second raises. *)
Theorem extract_feature_array_app
    (first second : list (Beatmap * gmap string bool)) :
  extract_feature_array (first ++ second)
  = (rows1 ← extract_feature_array first;
     rows2 ← extract_feature_array second;
     mret (rows1 ++ rows2)).
Proof.
  unfold extract_feature_array. by rewrite filter_app, mapM_result_app.
Qed.

(** ** When the data set is returned, and its size *)

Lemma length_filter_eq_iff {A : Type} (P : A → Prop)
    `{!∀ x, Decision (P x)} (l : list A) :
  length (filter P l) = length l ↔ Forall P l.
Proof.
  split; [|by intros Hall; rewrite filter_Forall].
  induction l as [|a l IH]; [constructor|].
  rewrite filter_cons. destruct (decide (P a)) as [Ha|Ha]; simpl; intros Hlen.
  - constructor; [done|]. apply IH. lia.
  - pose proof (length_filter P l). lia.
Qed.

Lemma filter_sublist_mono {A : Type} (P1 P2 : A → Prop)
    `{!∀ x, Decision (P1 x), !∀ x, Decision (P2 x)} (l : list A) :
  (∀ x, P1 x → P2 x) → filter P1 l `sublist_of` filter P2 l.
Proof.
  intros Himp. rewrite <- (list_filter_filter_l P1 P2 l Himp).
  apply sublist_filter.
Qed.

Lemma mapM_result_returns {A B} (f : A → result B) (l : list A) :
  Forall (λ a, ∃ b, f a = Ok b) l → ∃ k, mapM f l = Ok k.
Proof.
  induction 1 as [|a l [b Hb] _ [k Hk]]; simpl; [by eexists|].
  rewrite Hb; simpl. rewrite Hk; simpl. by eexists.
Qed.

Lemma mapM_result_Raise {A B} (f : A → result B) (l : list A) (err : exn) :
  mapM f l = Raise err → ∃ a, a ∈ l ∧ f a = Raise err.
Proof.
  induction l as [|a l IH]; simpl; [discriminate|].
  destruct (f a) as [b|err'] eqn:Hfa; simpl.
  - destruct (mapM f l) as [k|err'']; simpl; [discriminate|].
    intros [= ->]. destruct IH as (a' & Ha' & Hf); [done|].
    exists a'. split; [by apply list_elem_of_further | done].
  - intros [= ->]. exists a. split; [apply list_elem_of_here | done].
Qed.

Lemma feature_row_of_replay_returns (replay : Replay) :
  (2 ≤ length (hit_objects_no_spinners (beatmap replay)))%nat →
  ∃ row, feature_row (beatmap replay, mods_of replay) = Ok row.
Proof.
  intros Hlen. unfold feature_row. rewrite extract_features_kw_mods_of.
  destruct (extract_features_returns (beatmap replay) (easy replay)
              (hidden replay) (hard_rock replay) (double_time replay) false
              (half_time replay) (flashlight replay) Hlen) as [fv ->].
  by eexists.
Qed.

Lemma feature_row_of_replay_raises (replay : Replay) :
  (length (hit_objects_no_spinners (beatmap replay)) < 2)%nat →
  feature_row (beatmap replay, mods_of replay) = Raise ValueError.
Proof.
  intros Hlen. unfold feature_row.
  by rewrite extract_features_kw_mods_of, extract_features_raises.
Qed.

(** The data set, when it is returned, has one label for each counted
    entry and one row for each counted entry whose beatmap has two hit
    objects or more: never more rows than labels, and as many rows as
    labels exactly when no counted entry has a beatmap of fewer than two
    hit objects. *)
Theorem rows_at_most_labels (entries : list DirEntry) (age : option Z)
    (features : list (list Q)) (accuracies : list Q) :
  extract_from_replay_directory entries age = Ok (features, accuracies) →
  let kept := filter (λ e, counted age e) entries in
  length accuracies = length kept ∧
  length features
  = length (filter (λ e, has_two_hit_objects (beatmap (from_path e))) kept) ∧
  (length features ≤ length accuracies)%nat ∧
  (length features = length accuracies ↔
   Forall (λ e, has_two_hit_objects (beatmap (from_path e))) kept).
Proof.
  intros H kept.
  apply extract_from_replay_directory_Ok in H as [-> Hrows].
  fold kept in Hrows |- *. apply Forall2_length in Hrows.
  rewrite length_fmap, <- Hrows.
  split; [done|]. split; [done|].
  split; [apply length_filter | apply length_filter_eq_iff].
Qed.

(** [extract_from_replay_directory] returns exactly when every counted
    entry whose beatmap has two hit objects or more has two hit objects
    or more that are not spinners; otherwise it raises [ValueError],
    whatever the other entries are. *)
Theorem data_set_returns_iff (entries : list DirEntry) (age : option Z) :
  let eligible :=
    filter (λ e, has_two_hit_objects (beatmap (from_path e)))
           (filter (λ e, counted age e) entries) in
  ((∃ features accuracies,
      extract_from_replay_directory entries age = Ok (features, accuracies)) ↔
   Forall (λ e, (2 ≤ length (hit_objects_no_spinners
                               (beatmap (from_path e))))%nat) eligible) ∧
  ∀ err : exn,
    extract_from_replay_directory entries age = Raise err →
    err = ValueError ∧
    ∃ e, e ∈ eligible ∧
         (length (hit_objects_no_spinners (beatmap (from_path e))) < 2)%nat.
Proof.
  intros eligible.
  rewrite extract_from_replay_directory_counted.
  unfold extract_feature_array.
  rewrite (filter_fmap _ (λ beatmap_and_mods,
             (2 ≤ length (hit_objects beatmap_and_mods.1))%nat)).
  change (filter _ (filter (λ e, counted age e) entries)) with eligible.
  split; [split|].
  - intros (features & accuracies & H).
    apply result_bind_Ok in H as (rows & Hrows & _).
    apply mapM_result_Ok, Forall2_fmap_l in Hrows.
    apply Forall_forall. intros e He.
    destruct (decide (2 ≤ length (hit_objects_no_spinners
                                    (beatmap (from_path e))))%nat)
      as [|Hshort]; [done|].
    apply list_elem_of_lookup_1 in He as [i Hi].
    destruct (Forall2_lookup_l _ _ _ _ _ Hrows Hi) as (row & _ & Hrow).
    change (feature_row (beatmap (from_path e), mods_of (from_path e))
            = Ok row) in Hrow.
    rewrite feature_row_of_replay_raises in Hrow by lia.
    discriminate.
  - intros Hall.
    destruct (mapM_result_returns feature_row
                ((λ e, (beatmap (from_path e), mods_of (from_path e)))
                   <$> eligible)) as [rows Hrows].
    { apply Forall_fmap. eapply Forall_impl; [exact Hall|].
      intros e He. by apply feature_row_of_replay_returns. }
    rewrite Hrows. by eexists _, _.
  - intros err H.
    destruct (mapM feature_row _) as [rows|err'] eqn:Hrows; [discriminate|].
    injection H as ->.
    apply mapM_result_Raise in Hrows as (pair & Hpair & Hraise).
    apply list_elem_of_fmap in Hpair as (e & -> & He).
    destruct (decide (2 ≤ length (hit_objects_no_spinners
                                    (beatmap (from_path e))))%nat)
      as [Hlong|Hshort].
    + destruct (feature_row_of_replay_returns _ Hlong) as [row Hrow].
      rewrite Hrow in Hraise. discriminate.
    + rewrite feature_row_of_replay_raises in Hraise by lia.
      injection Hraise as <-. split; [done|]. exists e. split; [done | lia].
Qed.

Lemma counted_iff (age : option Z) (entry : DirEntry) :
  counted age entry ↔
  endswith (name entry) ".osr" = true ∧ too_old age entry = false ∧
  unrepresentative (from_path entry) = false.
Proof.
  unfold counted.
  destruct (endswith (name entry) ".osr"), (too_old age entry),
           (unrepresentative (from_path entry)); simpl;
    intuition congruence.
Qed.

(** Only the counted entries matter: the entries whose name does not
    end in [.osr], the replays older than the age and the replays with
    an excluded mod can be taken out of the directory without any change
    in what [extract_from_replay_directory] gives. *)
Theorem only_counted_entries_matter (entries : list DirEntry)
    (age : option Z) :
  extract_from_replay_directory (filter (λ e, counted age e) entries) age
  = extract_from_replay_directory entries age ∧
  extract_from_replay_directory
    (filter (λ e, endswith (name e) ".osr") entries) age
  = extract_from_replay_directory entries age ∧
  extract_from_replay_directory
    (filter (λ e, negb (too_old age e)) entries) age
  = extract_from_replay_directory entries age.
Proof.
  rewrite !extract_from_replay_directory_counted.
  split; [|split].
  - by rewrite list_filter_filter_l.
  - rewrite list_filter_filter_l; [done|].
    intros e. unfold counted.
    destruct (endswith (name e) ".osr"); [done | intros []].
  - rewrite list_filter_filter_l; [done|].
    intros e. unfold counted.
    destruct (endswith (name e) ".osr"), (too_old age e); simpl; tauto.
Qed.

(** A greater age keeps every replay that a smaller age keeps, and no
    age at all keeps them all, in the same order. *)
Theorem greater_age_keeps_more (entries : list DirEntry) (age age' : Z) :
  (age ≤ age')%Z →
  filter (λ e, counted (Some age) e) entries
    `sublist_of` filter (λ e, counted (Some age') e) entries ∧
  filter (λ e, counted (Some age') e) entries
    `sublist_of` filter (λ e, counted None e) entries.
Proof.
  intros Hage. split; apply filter_sublist_mono; intros e;
    rewrite !counted_iff; intros (Hname & Hold & Hmods);
    (split; [done|]; split; [|done]); [|done].
  unfold too_old in *. rewrite bool_decide_eq_false in *. lia.
Qed.

(** ** What the mods change in a feature vector *)

Lemma features_by_name_without_hidden_flashlight (b : Beatmap)
    (e h h' hr dt ht f f' : bool)
    (od' ar' bpm_min' bpm_max' : Q) (circles sliders spinners : nat)
    (mean_angles median_angles max_angles : list Q) :
  delete "hidden"
    (delete "flashlight"
       (features_by_name b e h hr dt ht f od' ar' bpm_min' bpm_max'
          circles sliders spinners mean_angles median_angles max_angles))
  = delete "hidden"
      (delete "flashlight"
         (features_by_name b e h' hr dt ht f' od' ar' bpm_min' bpm_max'
            circles sliders spinners mean_angles median_angles max_angles)).
Proof. vm_compute. exact eq_refl. Qed.

(** The hidden and the flashlight flags change nothing but their own
    entries: two calls of [extract_features] that differ only in these
    two flags return feature vectors that are equal at every other key,
    and the two entries are 1 for a flag that is set and 0 otherwise. *)
Theorem hidden_flashlight_frame (b : Beatmap) (e h h' hr dt r ht f f' : bool)
    (fv fv' : gmap string Q) :
  extract_features b e h hr dt r ht f = Ok fv →
  extract_features b e h' hr dt r ht f' = Ok fv' →
  (∀ key : string,
     key ≠ "hidden" → key ≠ "flashlight" → fv !! key = fv' !! key) ∧
  fv !! "hidden" = Some (if h then 1 else 0)%Q ∧
  fv !! "flashlight" = Some (if f then 1 else 0)%Q.
Proof.
  intros Hfv Hfv'.
  apply extract_features_Ok in Hfv as (angles & max_angles & Ha & Hm & ->).
  apply extract_features_Ok in Hfv' as (angles' & max_angles' & Ha' & Hm' & ->).
  rewrite Ha in Ha'. injection Ha' as <-.
  rewrite Hm in Hm'. injection Hm' as <-.
  split; [|split; reflexivity].
  intros key Hh Hf.
  rewrite <- (lookup_delete_ne (features_by_name b e h _ _ _ _ _ _ _ _ _ _ _ _ _ _)
                "flashlight" key) by done.
  rewrite <- (lookup_delete_ne (delete "flashlight" _) "hidden" key) by done.
  rewrite (features_by_name_without_hidden_flashlight b e h h' hr dt ht f f').
  by rewrite !lookup_delete_ne.
Qed.

(** The effective OD stays in [0, 10] when the OD of the beatmap is
    there: with easy it is half the OD of the beatmap, and without easy
    it is never below it.  The same holds of the AR entry when neither
    half_time nor double_time is set. *)
Theorem effective_od_ar_in_range (b : Beatmap) (e h hr dt r ht f : bool)
    (fv : gmap string Q) :
  (0 <= od b)%Q → (od b <= 10)%Q → (0 <= ar b)%Q → (ar b <= 10)%Q →
  extract_features b e h hr dt r ht f = Ok fv →
  (∃ v : Q, fv !! "OD" = Some v ∧
            (0 <= v)%Q ∧ (v <= 10)%Q ∧
            (e = true → (v == od b / 2)%Q) ∧
            (e = false → (od b <= v)%Q)) ∧
  (ht = false → dt = false →
   ∃ v : Q, fv !! "AR" = Some v ∧
            (0 <= v)%Q ∧ (v <= 10)%Q ∧
            (e = true → (v == ar b / 2)%Q) ∧
            (e = false → (ar b <= v)%Q)).
Proof.
  intros Hod0 Hod10 Har0 Har10 Hfv.
  apply extract_features_Ok in Hfv as (angles & max_angles & _ & _ & ->).
  split.
  - eexists. split; [reflexivity|].
    unfold easy_hard_rock, py_min. destruct e, hr; cbn [fst snd];
      try destruct (Qlt_le_dec 10 (1.4 * od b));
      (split; [|split; [|split]]);
      unfold Qdiv; change (/ 2)%Q with (1 # 2)%Q;
      lazymatch goal with
      | |- _ = _ → _ => intros [=]; lra
      | _ => lra
      end.
  - intros -> ->. eexists. split; [reflexivity|].
    unfold half_double_time, easy_hard_rock, py_min.
    destruct e, hr; cbn [fst snd];
      try destruct (Qlt_le_dec 10 (1.4 * ar b));
      (split; [|split; [|split]]);
      unfold Qdiv; change (/ 2)%Q with (1 # 2)%Q;
      lazymatch goal with
      | |- _ = _ → _ => intros [=]; lra
      | _ => lra
      end.
Qed.

(** bpm-min and bpm-max are the bpm of the beatmap scaled by one and the
    same factor (0.75 with half_time, else 1.5 with double_time, else
    1), so that their order is kept. *)
Theorem bpm_scaled_together (b : Beatmap) (e h hr dt r ht f : bool)
    (fv : gmap string Q) :
  extract_features b e h hr dt r ht f = Ok fv →
  ∃ low high : Q,
    fv !! "bpm-min" = Some low ∧
    fv !! "bpm-max" = Some high ∧
    let factor := (if ht then 0.75 else if dt then 1.5 else 1)%Q in
    (low == bpm_min b * factor)%Q ∧
    (high == bpm_max b * factor)%Q ∧
    ((bpm_min b <= bpm_max b)%Q → (low <= high)%Q).
Proof.
  intros Hfv.
  apply extract_features_Ok in Hfv as (angles & max_angles & _ & _ & ->).
  eexists _, _. split; [reflexivity|]. split; [reflexivity|].
  unfold half_double_time. destruct ht, dt; cbn [fst snd];
    (split; [|split]); try lra; intros; lra.
Qed.

(** The three counts of a feature vector add up to the number of hit
    objects of the beatmap, spinners included. *)
Theorem count_features_total (b : Beatmap) (e h hr dt r ht f : bool)
    (fv : gmap string Q) :
  extract_features b e h hr dt r ht f = Ok fv →
  ∃ circles sliders spinners : Q,
    fv !! "circle-count" = Some circles ∧
    fv !! "slider-count" = Some sliders ∧
    fv !! "spinner-count" = Some spinners ∧
    (circles + sliders + spinners
     == inject_Z (Z.of_nat (length (hit_objects b))))%Q.
Proof.
  intros Hfv.
  apply extract_features_Ok in Hfv as (angles & max_angles & _ & _ & ->).
  exists (inject_Z (Z.of_nat (count_hit_objects (hit_objects b)).1.1)),
         (inject_Z (Z.of_nat (count_hit_objects (hit_objects b)).1.2)),
         (inject_Z (Z.of_nat (count_hit_objects (hit_objects b)).2)).
  split; [reflexivity|]. split; [reflexivity|]. split; [reflexivity|].
  pose proof (count_loop (hit_objects b) 0 0 0) as Hcount.
  cbv zeta in Hcount. fold (count_hit_objects (hit_objects b)) in Hcount.
  rewrite <- !inject_Z_plus, <- !Nat2Z.inj_add, Hcount. reflexivity.
Qed.

(** The modifier flags reach ten entries only: two calls of
    [extract_features] on the same beatmap, whatever their flags, return
    feature vectors that are equal at every key other than OD, AR,
    bpm-min, bpm-max and the six flags (HP, CS, the counts, the slider
    values and the nine angle statistics are those of the beatmap). *)
Theorem flags_change_ten_entries (b : Beatmap)
    (e h hr dt r ht f e' h' hr' dt' r' ht' f' : bool)
    (fv fv' : gmap string Q) :
  extract_features b e h hr dt r ht f = Ok fv →
  extract_features b e' h' hr' dt' r' ht' f' = Ok fv' →
  ∀ key : string,
    key ∉ ({[ "OD"; "AR"; "bpm-min"; "bpm-max"; "easy"; "hidden";
              "hard_rock"; "double_time"; "half_time"; "flashlight" ]}
           : gset string) →
    fv !! key = fv' !! key.
Proof.
  intros Hfv Hfv' key Hkey.
  destruct (decide (key ∈ feature_names)) as [Hin|Hout].
  - apply extract_features_Ok in Hfv as (angles & max_angles & Ha & Hm & ->).
    apply extract_features_Ok in Hfv'
      as (angles' & max_angles' & Ha' & Hm' & ->).
    rewrite Ha in Ha'. injection Ha' as <-.
    rewrite Hm in Hm'. injection Hm' as <-.
    unfold feature_names in Hin.
    repeat (apply elem_of_union in Hin as [Hin|Hin]);
      apply elem_of_singleton in Hin as ->;
      first [ reflexivity
            | exfalso; apply Hkey;
              apply (bool_decide_unpack _); vm_compute; exact I ].
  - assert (dom fv = feature_names) as Hdom.
    { apply extract_features_Ok in Hfv as (? & ? & _ & _ & ->).
      apply features_by_name_dom. }
    assert (dom fv' = feature_names) as Hdom'.
    { apply extract_features_Ok in Hfv' as (? & ? & _ & _ & ->).
      apply features_by_name_dom. }
    assert (fv !! key = None) as ->
      by (apply not_elem_of_dom; by rewrite Hdom).
    symmetry. apply not_elem_of_dom. by rewrite Hdom'.
Qed.

End properties.

(** ** Examples *)

Local Abbreviation sample_extract_features :=
  (extract_features sample_arctan2 sample_ar_to_ms sample_ms_to_ar).
Local Abbreviation sample_feature_row :=
  (feature_row sample_arctan2 sample_ar_to_ms sample_ms_to_ar).
Local Abbreviation sample_extract_feature_array :=
  (extract_feature_array sample_arctan2 sample_ar_to_ms sample_ms_to_ar).
Local Abbreviation sample_extract_from_replay_directory :=
  (extract_from_replay_directory sample_arctan2 sample_ar_to_ms
     sample_ms_to_ar).

(** C1, on two replays of which the first is of a beatmap with a single
    hit object: [extract_from_replay_directory] returns one row, the row
    of the second replay, and two labels, of which the first is the
    accuracy of the first replay. *)
Theorem label_without_row :
  ∃ row : list Q,
    sample_extract_from_replay_directory short_then_long None
    = Ok ([row], [0.5%Q; 0.9%Q]) ∧
    sample_feature_row (two_circles, mods_of (replay_of two_circles 0.9))
    = Ok row.
Proof. eexists. split; vm_compute; reflexivity. Qed.

(** C2, on a beatmap of a circle and a spinner: it passes the guard of
    [extract_feature_array], one of its hit objects is not a spinner, and
    [extract_feature_array] raises. *)
Theorem guard_counts_spinners :
  has_two_hit_objects circle_and_spinner ∧
  length (hit_objects_no_spinners circle_and_spinner) = 1%nat ∧
  sample_extract_feature_array [(circle_and_spinner, ∅)] = Raise ValueError.
Proof.
  split; [unfold has_two_hit_objects; simpl; lia|].
  split; vm_compute; reflexivity.
Qed.

(** C3, at a beatmap with OD 5 and AR 9, easy and hard_rock set: the
    OD and AR entries are 5/2 and 9/2, not [min(1.4 * 5, 10)] and
    [min(1.4 * 9, 10)]. *)
Lemma hard_rock_does_not_win :
  ∃ fv : gmap string Q,
    sample_extract_features two_circles true false true false false false false
    = Ok fv ∧
    fv !! "OD" = Some (5 / 2)%Q ∧
    fv !! "AR" = Some (9 / 2)%Q ∧
    ¬ (5 / 2 == py_min (1.4 * od two_circles) 10)%Q ∧
    ¬ (9 / 2 == py_min (1.4 * ar two_circles) 10)%Q.
Proof.
  destruct (extract_features_returns sample_arctan2 sample_ar_to_ms
              sample_ms_to_ar two_circles true false true false false false
              false) as [fv Hfv]; [simpl; lia|].
  exists fv. split; [exact Hfv|].
  apply extract_features_Ok in Hfv as (angles & max_angles & _ & _ & ->).
  split; [reflexivity|]. split; [reflexivity|].
  split; vm_compute; discriminate.
Qed.

(** C5, at a beatmap without hit objects: [extract_features] raises and
    returns no mapping; so it does at a beatmap of a circle and a
    spinner, which passes the guard of [extract_feature_array]. *)
Lemma empty_beatmap_raises :
  sample_extract_features empty_beatmap false false false false false false false
  = Raise ValueError ∧
  sample_extract_features circle_and_spinner
    false false false false false false false
  = Raise ValueError ∧
  ¬ ∃ fv : gmap string Q,
      sample_extract_features empty_beatmap
        false false false false false false false = Ok fv ∧
      dom fv = feature_names.
Proof.
  assert (sample_extract_features empty_beatmap
            false false false false false false false = Raise ValueError)
    as H by reflexivity.
  split; [done|]. split; [reflexivity|].
  intros (fv & Hfv & _). rewrite H in Hfv. discriminate.
Qed.

Lemma easy_wins_over_hard_rock_witness :
  ∃ fv : gmap string Q,
    sample_extract_features two_circles true false true false false false false
    = Ok fv ∧
    fv !! "OD" = Some (od two_circles / 2)%Q ∧
    fv !! "AR" = Some (ar two_circles / 2)%Q.
Proof.
  destruct (extract_features_returns sample_arctan2 sample_ar_to_ms
              sample_ms_to_ar two_circles true false true false false false
              false) as [fv Hfv]; [simpl; lia|].
  exists fv. split; [exact Hfv|].
  destruct (easy_wins_over_hard_rock sample_arctan2 sample_ar_to_ms
              sample_ms_to_ar two_circles) as [_ H].
  destruct (H _ _ _ _ _ _ Hfv) as (HOD & _ & HAR).
  split; [exact HOD | by apply HAR].
Defined.

Lemma sample_ms_to_ar_decreasing (ms ms' : Q) :
  (ms <= ms')%Q → (sample_ms_to_ar ms' <= sample_ms_to_ar ms)%Q.
Proof.
  intros Hle. unfold sample_ms_to_ar, Qdiv.
  change (/ 120)%Q with (1 # 120)%Q. change (/ 150)%Q with (1 # 150)%Q.
  destruct (Qlt_le_dec 1200 ms'), (Qlt_le_dec 1200 ms); lra.
Qed.

Lemma sample_ms_to_ar_inverse (a : Q) :
  (sample_ms_to_ar (sample_ar_to_ms a) == a)%Q.
Proof.
  unfold sample_ms_to_ar, sample_ar_to_ms, Qdiv.
  change (/ 120)%Q with (1 # 120)%Q. change (/ 150)%Q with (1 # 150)%Q.
  destruct (Qlt_le_dec a 5);
    match goal with |- context [Qlt_le_dec ?x ?y] =>
      destruct (Qlt_le_dec x y) end; lra.
Qed.

Lemma sample_ar_to_ms_positive (a : Q) :
  (a <= 10)%Q → (0 <= sample_ar_to_ms a)%Q.
Proof.
  intros Hle. unfold sample_ar_to_ms. destruct (Qlt_le_dec a 5); lra.
Qed.

(** C4, at a beatmap with OD 5 and AR 9, hard_rock and double_time set,
    with the sample conversions: the hard rock stage caps the AR at 10,
    that is 450 ms, double_time makes them 300 ms, and the AR entry is
    11. *)
Lemma double_time_raises_ar_above_10 :
  (0 <= od two_circles)%Q ∧ (od two_circles <= 10)%Q ∧
  (0 <= ar two_circles)%Q ∧ (ar two_circles <= 10)%Q ∧
  ∃ (fv : gmap string Q) (v : Q),
    sample_extract_features two_circles false false true true false false false
    = Ok fv ∧
    fv !! "AR" = Some v ∧ (v == 11)%Q ∧ (10 < v)%Q.
Proof.
  do 4 (split; [simpl; lra|]).
  destruct (extract_features_returns sample_arctan2 sample_ar_to_ms
              sample_ms_to_ar two_circles false false true true false false
              false) as [fv Hfv]; [simpl; lia|].
  exists fv. eexists. split; [exact Hfv|].
  apply extract_features_Ok in Hfv as (angles & max_angles & _ & _ & ->).
  split; [reflexivity|]. split; vm_compute; reflexivity.
Qed.

Lemma hard_rock_at_most_10_witness :
  (0 <= od two_circles)%Q ∧ (od two_circles <= 10)%Q ∧
  (0 <= ar two_circles)%Q ∧ (ar two_circles <= 10)%Q ∧
  (∃ fv : gmap string Q,
     sample_extract_features two_circles
       false false true false false false false = Ok fv ∧
     ∃ od' ar' : Q,
       fv !! "OD" = Some od' ∧ fv !! "AR" = Some ar' ∧
       (od' <= 10)%Q ∧ (ar' <= 10)%Q) ∧
  (∃ fv : gmap string Q,
     sample_extract_features two_circles
       false false true true false true false = Ok fv ∧
     ∃ od' ar' : Q,
       fv !! "OD" = Some od' ∧ fv !! "AR" = Some ar' ∧
       (od' <= 10)%Q ∧ (ar' <= 10)%Q).
Proof.
  assert ((0 <= od two_circles)%Q ∧ (od two_circles <= 10)%Q ∧
          (0 <= ar two_circles)%Q ∧ (ar two_circles <= 10)%Q)
    as (H1 & H2 & H3 & H4) by (simpl; lra).
  do 4 (split; [assumption|]).
  destruct (hard_rock_at_most_10 sample_arctan2 sample_ar_to_ms
              sample_ms_to_ar two_circles H1 H2 H3 H4)
    as (od' & ar' & _ & Hod & Har & H).
  split.
  - destruct (extract_features_returns sample_arctan2 sample_ar_to_ms
                sample_ms_to_ar two_circles false false true false false
                false false) as [fv Hfv]; [simpl; lia|].
    exists fv. split; [exact Hfv|].
    destruct (H _ _ _ _ _ _ Hfv) as (HOD & _ & HAR & _).
    exists od', ar'. split; [exact HOD|].
    split; [exact (HAR eq_refl eq_refl)|]. split; [exact Hod | exact Har].
  - destruct (extract_features_returns sample_arctan2 sample_ar_to_ms
                sample_ms_to_ar two_circles false false true true false
                true false) as [fv Hfv]; [simpl; lia|].
    exists fv. split; [exact Hfv|].
    destruct (H _ _ _ _ _ _ Hfv) as (HOD & _ & _ & Hhalf).
    destruct (Hhalf eq_refl sample_ms_to_ar_decreasing
                (λ a _ _, sample_ms_to_ar_inverse a)
                (λ a _ Ha, sample_ar_to_ms_positive a Ha))
      as (v & Hv & Hv10).
    exists od', v. split; [exact HOD|].
    split; [exact Hv|]. split; [exact Hod | exact Hv10].
Defined.

Lemma extract_features_keys_witness :
  (2 ≤ length (hit_objects_no_spinners four_objects))%nat ∧
  ∃ fv : gmap string Q,
    sample_extract_features four_objects true true false true false false true
    = Ok fv ∧
    dom fv = feature_names ∧
    (sorted (map_to_list fv) _fst).*1 = feature_columns.
Proof.
  assert (2 ≤ length (hit_objects_no_spinners four_objects))%nat as H
    by (vm_compute; lia).
  split; [exact H|].
  exact (extract_features_keys sample_arctan2 sample_ar_to_ms sample_ms_to_ar
           four_objects true true false true false false true H).
Defined.

Lemma no_mod_identity_witness :
  ∃ fv : gmap string Q,
    sample_extract_features two_circles
      false false false false false false false = Ok fv ∧
    fv !! "OD" = Some (od two_circles) ∧
    fv !! "AR" = Some (ar two_circles) ∧
    fv !! "HP" = Some (hp two_circles) ∧
    fv !! "CS" = Some (cs two_circles) ∧
    fv !! "bpm-min" = Some (bpm_min two_circles) ∧
    fv !! "bpm-max" = Some (bpm_max two_circles).
Proof.
  destruct (extract_features_returns sample_arctan2 sample_ar_to_ms
              sample_ms_to_ar two_circles false false false false false false
              false) as [fv Hfv]; [simpl; lia|].
  exists fv. split; [exact Hfv|].
  destruct (no_mod_identity sample_arctan2 sample_ar_to_ms sample_ms_to_ar
              two_circles) as (_ & _ & H).
  exact (H fv Hfv).
Defined.

Lemma hp_cs_unchanged_witness :
  ∃ fv : gmap string Q,
    sample_extract_features four_objects true true true true true true true
    = Ok fv ∧
    fv !! "HP" = Some (hp four_objects) ∧ fv !! "CS" = Some (cs four_objects).
Proof.
  destruct (extract_features_returns sample_arctan2 sample_ar_to_ms
              sample_ms_to_ar four_objects true true true true true true
              true) as [fv Hfv]; [vm_compute; lia|].
  exists fv. split; [exact Hfv|].
  exact (hp_cs_unchanged sample_arctan2 sample_ar_to_ms sample_ms_to_ar
           four_objects true true true true true true true fv Hfv).
Defined.

Lemma two_hit_objects_statistics_agree_witness :
  length (hit_objects_no_spinners two_circles) = 2%nat ∧
  ∃ fv : gmap string Q,
    sample_extract_features two_circles
      false true false true false false false = Ok fv ∧
    statistics_agree fv "pitch" ∧
    statistics_agree fv "roll" ∧
    statistics_agree fv "yaw".
Proof.
  assert (length (hit_objects_no_spinners two_circles) = 2%nat) as H
    by reflexivity.
  split; [exact H|].
  exact (two_hit_objects_statistics_agree sample_arctan2 sample_ar_to_ms
           sample_ms_to_ar two_circles false true false true false false
           false H).
Defined.

Lemma relax_ignored_witness :
  sample_extract_features four_objects false true false true true false false
  = sample_extract_features four_objects
      false true false true false false false ∧
  ∃ fv : gmap string Q,
    sample_extract_features four_objects
      false true false true true false false = Ok fv ∧
    fv !! "relax" = None ∧ "relax" ∉ dom fv.
Proof.
  destruct (relax_ignored sample_arctan2 sample_ar_to_ms sample_ms_to_ar
              four_objects false true false true false false) as [Heq H].
  split; [exact Heq|].
  destruct (extract_features_returns sample_arctan2 sample_ar_to_ms
              sample_ms_to_ar four_objects false true false true true false
              false) as [fv Hfv]; [vm_compute; lia|].
  exists fv. split; [exact Hfv|]. exact (H true fv Hfv).
Defined.

(** Five records of which the third has relax set: four rows and four
    labels, those of the records 1, 2, 4 and 5 in this order. *)
Lemma unrepresentative_replays_left_out_witness :
  ∃ (row1 row2 row4 row5 : list Q),
    sample_extract_from_replay_directory five_replays None
    = Ok ([row1; row2; row4; row5], [0.91%Q; 0.92%Q; 0.94%Q; 0.95%Q]) ∧
    Forall2 (λ e row,
               sample_feature_row
                 (beatmap (from_path e), mods_of (from_path e)) = Ok row)
            (filter (λ e, unrepresentative (from_path e) = false) five_replays)
            [row1; row2; row4; row5] ∧
    sample_extract_from_replay_directory
      (filter (λ e, unrepresentative (from_path e) = false) five_replays) None
    = sample_extract_from_replay_directory five_replays None.
Proof.
  destruct (unrepresentative_replays_left_out sample_arctan2 sample_ar_to_ms
              sample_ms_to_ar five_replays None) as [Heq H].
  eexists _, _, _, _.
  split; [vm_compute; reflexivity|].
  split; [|exact Heq].
  refine (proj2 (proj2 (proj2 (H _ _ _)))).
  vm_compute. reflexivity.
Defined.

(** With a greatest age of 24 hours, of the replays of now, of one hour
    ago and of 48 hours ago the first two are kept. *)
Lemma age_filter_example :
  ∃ row1 row2 : list Q,
    sample_extract_from_replay_directory three_ages (Some (24 * one_hour)%Z)
    = Ok ([row1; row2], [0.8%Q; 0.7%Q]).
Proof. eexists _, _. vm_compute. reflexivity. Qed.

Lemma replays_up_to_age_kept_witness :
  ∃ features : list (list Q),
    sample_extract_from_replay_directory boundary_ages
      (Some (24 * one_hour)%Z)
    = Ok (features, [0.8%Q; 0.5%Q]) ∧
    [0.8%Q; 0.5%Q]
    = (λ e, accuracy (from_path e))
        <$> filter (λ e, endswith (name e) ".osr" = true ∧
                         (utcnow e - timestamp (from_path e)
                          ≤ 24 * one_hour)%Z ∧
                         unrepresentative (from_path e) = false)
                   boundary_ages.
Proof.
  assert (∃ features : list (list Q),
            sample_extract_from_replay_directory boundary_ages
              (Some (24 * one_hour)%Z)
            = Ok (features, [0.8%Q; 0.5%Q])) as [features Hok]
    by (eexists; vm_compute; reflexivity).
  exists features. split; [exact Hok|].
  exact (replays_up_to_age_kept sample_arctan2 sample_ar_to_ms
           sample_ms_to_ar boundary_ages (24 * one_hour) features _ Hok).
Defined.

Lemma extract_feature_array_rows_witness :
  ∃ features : list (list Q),
    sample_extract_feature_array
      [(two_circles, ∅); (one_circle, ∅); (four_objects, {["easy" := true]})]
    = Ok features ∧
    length features = 2%nat ∧
    Forall (λ row, length row = 26%nat) features.
Proof.
  eexists. split; [vm_compute; reflexivity|].
  refine (extract_feature_array_rows sample_arctan2 sample_ar_to_ms
            sample_ms_to_ar
            [(two_circles, ∅); (one_circle, ∅);
             (four_objects, {["easy" := true]})] _ _).
  vm_compute. reflexivity.
Defined.

Lemma rows_and_labels_aligned_witness :
  Forall (λ e, has_two_hit_objects (beatmap (from_path e)))
         (filter (λ e, counted None e) five_replays) ∧
  ∃ (features : list (list Q)) (accuracies : list Q),
    sample_extract_from_replay_directory five_replays None
    = Ok (features, accuracies) ∧
    length features = length accuracies.
Proof.
  assert (Forall (λ e, has_two_hit_objects (beatmap (from_path e)))
                 (filter (λ e, counted None e) five_replays)) as Hall.
  { vm_compute. repeat constructor. }
  split; [exact Hall|].
  eexists _, _. split; [vm_compute; reflexivity|].
  refine (proj1 (rows_and_labels_aligned sample_arctan2 sample_ar_to_ms
                   sample_ms_to_ar five_replays None _ _ Hall _)).
  vm_compute. reflexivity.
Defined.

Lemma hit_object_angles_between_witness :
  hit_objects four_objects ≠ [] ∧
  ∃ pitches rolls yaws : list Q,
    hit_object_angles sample_arctan2 (hit_objects four_objects)
    = Ok [pitches; rolls; yaws] ∧
    length pitches = 3%nat ∧ length rolls = 3%nat ∧ length yaws = 3%nat.
Proof.
  assert (hit_objects four_objects ≠ []) as Hne by discriminate.
  split; [exact Hne|].
  destruct (hit_object_angles_between sample_arctan2
              (hit_objects four_objects) Hne)
    as (pitches & rolls & yaws & Hok & Hp & Hr & Hw & _).
  exists pitches, rolls, yaws.
  split; [exact Hok|]. split; [exact Hp|]. split; [exact Hr | exact Hw].
Defined.

Lemma angle_statistics_bounded_witness :
  ∃ fv : gmap string Q,
    sample_extract_features four_objects false true false true false false false
    = Ok fv ∧
    statistics_bounded fv "pitch" ∧
    statistics_bounded fv "roll" ∧
    statistics_bounded fv "yaw".
Proof.
  destruct (extract_features_returns sample_arctan2 sample_ar_to_ms
              sample_ms_to_ar four_objects false true false true false false
              false) as [fv Hfv]; [vm_compute; lia|].
  exists fv. split; [exact Hfv|].
  exact (angle_statistics_bounded sample_arctan2 sample_ar_to_ms
           sample_ms_to_ar four_objects false true false true false false
           false fv Hfv).
Defined.

Lemma feature_row_by_column_witness :
  ∃ (fv : gmap string Q) (row : list Q),
    extract_features_kw sample_arctan2 sample_ar_to_ms sample_ms_to_ar
      two_circles {["hidden" := true]} = Ok fv ∧
    sample_feature_row (two_circles, {["hidden" := true]}) = Ok row ∧
    Forall2 (λ name value, fv !! name = Some value) feature_columns row.
Proof.
  destruct (extract_features_returns sample_arctan2 sample_ar_to_ms
              sample_ms_to_ar two_circles false true false false false false
              false) as [fv Hfv]; [simpl; lia|].
  assert (extract_features_kw sample_arctan2 sample_ar_to_ms sample_ms_to_ar
            two_circles {["hidden" := true]} = Ok fv) as Hkw by exact Hfv.
  destruct (feature_row_by_column sample_arctan2 sample_ar_to_ms
              sample_ms_to_ar two_circles {["hidden" := true]} fv Hkw)
    as (row & Hrow & Hcolumns).
  exists fv, row. split; [exact Hkw|]. split; [exact Hrow | exact Hcolumns].
Defined.

Lemma rows_at_most_labels_witness :
  ∃ (features : list (list Q)) (accuracies : list Q),
    sample_extract_from_replay_directory short_then_long None
    = Ok (features, accuracies) ∧
    length accuracies = 2%nat ∧
    length features = 1%nat ∧
    (length features ≤ length accuracies)%nat.
Proof.
  assert (∃ row : list Q,
            sample_extract_from_replay_directory short_then_long None
            = Ok ([row], [0.5%Q; 0.9%Q])) as [row Hok]
    by (eexists; vm_compute; reflexivity).
  exists [row], [0.5%Q; 0.9%Q]. split; [exact Hok|].
  destruct (rows_at_most_labels sample_arctan2 sample_ar_to_ms
              sample_ms_to_ar short_then_long None _ _ Hok)
    as (Hlabels & Hrows & Hle & _).
  split; [exact Hlabels|]. split; [exact Hrows | exact Hle].
Defined.

Lemma greater_age_keeps_more_witness :
  (one_hour ≤ 24 * one_hour)%Z ∧
  filter (λ e, counted (Some one_hour) e) three_ages
    `sublist_of` filter (λ e, counted (Some (24 * one_hour)%Z) e) three_ages ∧
  filter (λ e, counted (Some (24 * one_hour)%Z) e) three_ages
    `sublist_of` filter (λ e, counted None e) three_ages.
Proof.
  assert (one_hour ≤ 24 * one_hour)%Z as Hage by (vm_compute; discriminate).
  split; [exact Hage|].
  exact (greater_age_keeps_more three_ages one_hour (24 * one_hour) Hage).
Defined.

Lemma hidden_flashlight_frame_witness :
  ∃ fv fv' : gmap string Q,
    sample_extract_features four_objects true false false true false false true
    = Ok fv ∧
    sample_extract_features four_objects true true false true false false false
    = Ok fv' ∧
    (∀ key : string,
       key ≠ "hidden" → key ≠ "flashlight" → fv !! key = fv' !! key) ∧
    fv !! "hidden" = Some 0%Q ∧
    fv !! "flashlight" = Some 1%Q.
Proof.
  destruct (extract_features_returns sample_arctan2 sample_ar_to_ms
              sample_ms_to_ar four_objects true false false true false false
              true) as [fv Hfv]; [vm_compute; lia|].
  destruct (extract_features_returns sample_arctan2 sample_ar_to_ms
              sample_ms_to_ar four_objects true true false true false false
              false) as [fv' Hfv']; [vm_compute; lia|].
  exists fv, fv'. split; [exact Hfv|]. split; [exact Hfv'|].
  exact (hidden_flashlight_frame sample_arctan2 sample_ar_to_ms
           sample_ms_to_ar four_objects true false true false true false
           false true false fv fv' Hfv Hfv').
Defined.

Lemma effective_od_ar_in_range_witness :
  (0 <= od four_objects)%Q ∧ (od four_objects <= 10)%Q ∧
  (0 <= ar four_objects)%Q ∧ (ar four_objects <= 10)%Q ∧
  ∃ fv : gmap string Q,
    sample_extract_features four_objects
      false false true false false false false = Ok fv ∧
    ∃ v : Q, fv !! "OD" = Some v ∧ (0 <= v)%Q ∧ (v <= 10)%Q.
Proof.
  assert ((0 <= od four_objects)%Q ∧ (od four_objects <= 10)%Q ∧
          (0 <= ar four_objects)%Q ∧ (ar four_objects <= 10)%Q)
    as (H1 & H2 & H3 & H4) by (simpl; lra).
  do 4 (split; [assumption|]).
  destruct (extract_features_returns sample_arctan2 sample_ar_to_ms
              sample_ms_to_ar four_objects false false true false false false
              false) as [fv Hfv]; [vm_compute; lia|].
  exists fv. split; [exact Hfv|].
  destruct (effective_od_ar_in_range sample_arctan2 sample_ar_to_ms
              sample_ms_to_ar four_objects false false true false false false
              false fv H1 H2 H3 H4 Hfv) as [(v & Hv & Hv0 & Hv10 & _) _].
  exists v. split; [exact Hv|]. split; [exact Hv0 | exact Hv10].
Defined.

Lemma bpm_scaled_together_witness :
  ∃ (fv : gmap string Q) (low high : Q),
    sample_extract_features four_objects
      false false false true false false false = Ok fv ∧
    fv !! "bpm-min" = Some low ∧ fv !! "bpm-max" = Some high ∧
    (low == bpm_min four_objects * 1.5)%Q ∧
    (high == bpm_max four_objects * 1.5)%Q.
Proof.
  destruct (extract_features_returns sample_arctan2 sample_ar_to_ms
              sample_ms_to_ar four_objects false false false true false false
              false) as [fv Hfv]; [vm_compute; lia|].
  destruct (bpm_scaled_together sample_arctan2 sample_ar_to_ms
              sample_ms_to_ar four_objects false false false true false false
              false fv Hfv) as (low & high & Hlow & Hhigh & Hl & Hh & _).
  exists fv, low, high. split; [exact Hfv|]. split; [exact Hlow|].
  split; [exact Hhigh|]. split; [exact Hl | exact Hh].
Defined.

Lemma count_features_total_witness :
  ∃ (fv : gmap string Q) (circles sliders spinners : Q),
    sample_extract_features four_objects
      false false false false false false false = Ok fv ∧
    fv !! "circle-count" = Some circles ∧
    fv !! "slider-count" = Some sliders ∧
    fv !! "spinner-count" = Some spinners ∧
    (circles + sliders + spinners == 4)%Q.
Proof.
  destruct (extract_features_returns sample_arctan2 sample_ar_to_ms
              sample_ms_to_ar four_objects false false false false false false
              false) as [fv Hfv]; [vm_compute; lia|].
  destruct (count_features_total sample_arctan2 sample_ar_to_ms
              sample_ms_to_ar four_objects false false false false false false
              false fv Hfv) as (circles & sliders & spinners & H1 & H2 & H3 & H4).
  exists fv, circles, sliders, spinners. split; [exact Hfv|].
  split; [exact H1|]. split; [exact H2|]. split; [exact H3 | exact H4].
Defined.

Lemma flags_change_ten_entries_witness :
  ∃ fv fv' : gmap string Q,
    sample_extract_features four_objects true false false true false false true
    = Ok fv ∧
    sample_extract_features four_objects false true true false true true false
    = Ok fv' ∧
    fv !! "HP" = fv' !! "HP" ∧
    fv !! "median-roll" = fv' !! "median-roll" ∧
    fv !! "spinner-count" = fv' !! "spinner-count".
Proof.
  destruct (extract_features_returns sample_arctan2 sample_ar_to_ms
              sample_ms_to_ar four_objects true false false true false false
              true) as [fv Hfv]; [vm_compute; lia|].
  destruct (extract_features_returns sample_arctan2 sample_ar_to_ms
              sample_ms_to_ar four_objects false true true false true true
              false) as [fv' Hfv']; [vm_compute; lia|].
  exists fv, fv'. split; [exact Hfv|]. split; [exact Hfv'|].
  pose proof (flags_change_ten_entries sample_arctan2 sample_ar_to_ms
                sample_ms_to_ar four_objects true false false true false false
                true false true true false true true false fv fv' Hfv Hfv')
    as Hframe.
  split; [|split]; apply Hframe;
    apply (bool_decide_unpack _); vm_compute; exact I.
Defined.
